(** * M-Stack: a shallow embedding of the repository's programs

    The repository holds
    - [scripts/check-site.sh], a smoke test of the deployed site,
    - two versions of the evidence page script (function
      [renderHallucinationTable]),
    - the design document with the Python reference pipeline
      ([pipeline], [dynamic_k], the dual update of the CMDP controller).

    Numbers: the floats of [dynamic_k], whose cut points decide by
    rounding, are binary64 values (primitive floats); the floats of the
    dual update and of the page scripts are idealised as rationals ([Q]),
    and JavaScript numbers add the values NaN and the two infinities. *)

From Stdlib Require Import ZArith QArith Qminmax Qabs List String Ascii Bool Arith Lia Lqa.
From Stdlib Require Import DecimalString Floats.
Import ListNotations.

Set Warnings "-register-all".
(* Decimal literals denote the nearest binary64 value, as in Python. *)
Set Warnings "-inexact-float".

(** ** Results of fallible code *)

Inductive exn : Type :=
| TypeError
| AttributeError.

Inductive result (A : Type) : Type :=
| Return (a : A)
| Raise (e : exn).

Arguments Return {A} a.
Arguments Raise {A} e.

Definition bind {A B : Type} (m : result A) (k : A -> result B) : result B :=
  match m with
  | Return a => k a
  | Raise e => Raise e
  end.

Declare Scope result_scope.
Delimit Scope result_scope with result.
Notation "x <- m ;; k" := (bind m (fun x => k))
  (at level 61, m at next level, right associativity) : result_scope.

(** ** Choosing a best element *)

Section ArgMax.

Local Open Scope Q_scope.

Variable A : Type.
Variable u : A -> Q.

(** The best of [best :: rest] under [u]; of two equal values the earlier
    stays. *)
Fixpoint argmax (best : A) (rest : list A) : A :=
  match rest with
  | [] => best
  | a :: rest' => argmax (if Qlt_le_dec (u best) (u a) then a else best) rest'
  end.

Lemma argmax_in (rest : list A) (best : A) :
  In (argmax best rest) (best :: rest).
Proof.
  revert best. induction rest as [ | a rest IH]; intros best; cbn [argmax].
  - left. reflexivity.
  - destruct (IH (if Qlt_le_dec (u best) (u a) then a else best)) as [H | H].
    + destruct (Qlt_le_dec (u best) (u a)).
      * right. left. exact H.
      * left. exact H.
    + right. right. exact H.
Qed.

Lemma argmax_best (rest : list A) (best : A) :
  forall a, In a (best :: rest) -> u a <= u (argmax best rest).
Proof.
  revert best. induction rest as [ | b rest IH]; intros best a Hin; cbn [argmax].
  - destruct Hin as [<- | []]. apply Qle_refl.
  - destruct (Qlt_le_dec (u best) (u b)) as [L | L].
    + destruct Hin as [<- | Hin].
      * apply Qle_trans with (u b); [apply Qlt_le_weak; exact L | ].
        apply IH. left. reflexivity.
      * apply IH. exact Hin.
    + destruct Hin as [<- | [<- | Hin]].
      * apply IH. left. reflexivity.
      * apply Qle_trans with (u best); [exact L | ].
        apply IH. left. reflexivity.
      * apply IH. right. exact Hin.
Qed.

Lemma argmax_stays (rest : list A) (best : A) :
  (forall a, In a rest -> u a <= u best) -> argmax best rest = best.
Proof.
  induction rest as [ | a rest IH]; intros H; cbn [argmax]; [reflexivity | ].
  destruct (Qlt_le_dec (u best) (u a)) as [L | _].
  - exfalso. apply (Qlt_not_le _ _ L). apply H. left. reflexivity.
  - apply IH. intros b Hb. apply H. right. exact Hb.
Qed.

End ArgMax.

Arguments argmax {A} u best rest.

(** ** scripts/check-site.sh *)

Module CheckSite.

Local Open Scope string_scope.

(** What one [curl -s -o /dev/null -w "%{http_code}" URL] does: its exit
    status and the text it writes, which the script captures. *)
Record probe : Type := {
  curl_status : nat;
  http_code : string
}.

Record outcome : Type := {
  stdout : list string;
  exit_code : nat
}.

Definition is_digit (c : ascii) : bool :=
  let n := nat_of_ascii c in (48 <=? n)%nat && (n <=? 57)%nat.

Fixpoint parse_digits (s : string) (acc : N) : option N :=
  match s with
  | EmptyString => Some acc
  | String c s' =>
      if is_digit c
      then parse_digits s' (10 * acc + N.of_nat (nat_of_ascii c - 48))%N
      else None
  end.

(** The integer a decimal word denotes for [test]; [None] when [test]
    rejects the word ("integer expression expected"). *)
Definition parse_int (s : string) : option N :=
  match s with
  | EmptyString => None
  | _ => parse_digits s 0%N
  end.

(** [[ "$X" -ne n ]]: when the word is no integer, [test] fails with
    status 2, which an [if] takes as false. *)
Definition test_ne (s : string) (n : N) : bool :=
  match parse_int s with
  | Some v => negb (v =? n)%N
  | None => false
  end.

(** The script, line by line. [set -e] ends it with curl's status when
    a command substitution fails (lines 7 and 8). *)
Definition check_site (base_url : string) (p1 p2 : probe) : outcome :=
  let out := ["Checking " ++ base_url] in
  if negb (curl_status p1 =? 0)%nat then
    {| stdout := out; exit_code := curl_status p1 |}
  else if negb (curl_status p2 =? 0)%nat then
    {| stdout := out; exit_code := curl_status p2 |}
  else if test_ne (http_code p1) 200 then
    {| stdout := out ++ ["Index returned HTTP " ++ http_code p1];
       exit_code := 2 |}
  else if test_ne (http_code p2) 200 then
    {| stdout := out ++ ["Evidence returned HTTP " ++ http_code p2];
       exit_code := 3 |}
  else
    {| stdout := out ++ ["Both pages returned 200 OK"]; exit_code := 0 |}.

Definition both_ok : string := "Both pages returned 200 OK".

Lemma test_ne_parsed (s : string) (v n : N) :
  parse_int s = Some v -> test_ne s n = negb (v =? n)%N.
Proof.
  unfold test_ne. intros ->. reflexivity.
Qed.

Lemma checking_line_differs (base_url : string) :
  "Checking " ++ base_url <> both_ok.
Proof.
  unfold both_ok. simpl. discriminate.
Qed.

Lemma index_line_differs (s : string) :
  "Index returned HTTP " ++ s <> both_ok.
Proof.
  unfold both_ok. simpl. discriminate.
Qed.

Lemma evidence_line_differs (s : string) :
  "Evidence returned HTTP " ++ s <> both_ok.
Proof.
  unfold both_ok. simpl. discriminate.
Qed.

(** C9. Once both curl commands have succeeded and printed status codes
    [n1] (index) and [n2] (evidence): the script exits 2 when [n1] is not
    200; it exits 3 when [n1] is 200 and [n2] is not; and it prints
    "Both pages returned 200 OK" and exits 0 exactly when both are 200. *)
Theorem check_site_exit_codes (base_url : string) (p1 p2 : probe) (n1 n2 : N) :
  curl_status p1 = 0%nat ->
  curl_status p2 = 0%nat ->
  parse_int (http_code p1) = Some n1 ->
  parse_int (http_code p2) = Some n2 ->
  let r := check_site base_url p1 p2 in
  (n1 <> 200%N -> exit_code r = 2%nat) /\
  (n1 = 200%N -> n2 <> 200%N -> exit_code r = 3%nat) /\
  ((In both_ok (stdout r) /\ exit_code r = 0%nat) <->
   (n1 = 200%N /\ n2 = 200%N)).
Proof.
  intros E1 E2 P1 P2 r. subst r. unfold check_site.
  rewrite E1, E2. cbn [Nat.eqb negb].
  rewrite (test_ne_parsed _ _ 200 P1), (test_ne_parsed _ _ 200 P2).
  destruct (N.eqb_spec n1 200) as [H1 | H1];
    destruct (N.eqb_spec n2 200) as [H2 | H2]; cbn [negb stdout exit_code].
  - split; [congruence | split; [congruence | ]].
    split; [intros _; split; assumption | intros _; split; [ | reflexivity ]].
    right. left. reflexivity.
  - split; [congruence | split; [reflexivity | ]].
    split; [intros [_ H]; discriminate H | intros [_ H]; contradiction].
  - split; [reflexivity | split; [congruence | ]].
    split; [intros [_ H]; discriminate H | intros [H _]; contradiction].
  - split; [reflexivity | split; [congruence | ]].
    split; [intros [_ H]; discriminate H | intros [H _]; contradiction].
Qed.

(** The theorem at the statuses 200 and 404. *)
Lemma check_site_exit_codes_witness :
  let r := check_site "https://apmorey93.github.io/mstack"
             {| curl_status := 0; http_code := "200" |}
             {| curl_status := 0; http_code := "404" |} in
  (200%N <> 200%N -> exit_code r = 2%nat) /\
  (200%N = 200%N -> 404%N <> 200%N -> exit_code r = 3%nat) /\
  ((In both_ok (stdout r) /\ exit_code r = 0%nat) <->
   (200%N = 200%N /\ 404%N = 200%N)).
Proof.
  apply (check_site_exit_codes "https://apmorey93.github.io/mstack"
           {| curl_status := 0; http_code := "200" |}
           {| curl_status := 0; http_code := "404" |} 200 404);
    reflexivity.
Defined.

(** Under [set -e] a probe that fails ends the script with curl's status:
    only the first line has been printed and no status code is tested. *)
Theorem check_site_curl_failure (base_url : string) (p1 p2 : probe) :
  (curl_status p1 <> 0%nat ->
   check_site base_url p1 p2
   = {| stdout := ["Checking " ++ base_url]; exit_code := curl_status p1 |}) /\
  (curl_status p1 = 0%nat -> curl_status p2 <> 0%nat ->
   check_site base_url p1 p2
   = {| stdout := ["Checking " ++ base_url]; exit_code := curl_status p2 |}).
Proof.
  unfold check_site. split.
  - intros H. apply Nat.eqb_neq in H. rewrite H. reflexivity.
  - intros H1 H2. apply Nat.eqb_neq in H2. rewrite H1, H2. reflexivity.
Qed.

(** Once both probes have succeeded the script prints two lines, the
    second being one of its three verdicts, and exits with the matching
    code: it names only the first page that fails and never ends with any
    other status. *)
Theorem check_site_verdicts (base_url : string) (p1 p2 : probe) :
  curl_status p1 = 0%nat ->
  curl_status p2 = 0%nat ->
  let r := check_site base_url p1 p2 in
  (stdout r = ["Checking " ++ base_url; "Index returned HTTP " ++ http_code p1]
   /\ exit_code r = 2%nat) \/
  (stdout r = ["Checking " ++ base_url; "Evidence returned HTTP " ++ http_code p2]
   /\ exit_code r = 3%nat /\ test_ne (http_code p1) 200 = false) \/
  (stdout r = ["Checking " ++ base_url; both_ok]
   /\ exit_code r = 0%nat
   /\ test_ne (http_code p1) 200 = false /\ test_ne (http_code p2) 200 = false).
Proof.
  intros E1 E2 r. subst r. unfold check_site. rewrite E1, E2. cbn [Nat.eqb negb].
  destruct (test_ne (http_code p1) 200) eqn:T1.
  - left. split; reflexivity.
  - destruct (test_ne (http_code p2) 200) eqn:T2.
    + right. left. repeat split; reflexivity.
    + right. right. repeat split; reflexivity.
Qed.

Lemma check_site_verdicts_witness :
  let r := check_site "u" {| curl_status := 0; http_code := "200" |}
                          {| curl_status := 0; http_code := "500" |} in
  (stdout r = ["Checking u"; "Index returned HTTP 200"] /\ exit_code r = 2%nat) \/
  (stdout r = ["Checking u"; "Evidence returned HTTP 500"]
   /\ exit_code r = 3%nat /\ test_ne "200" 200 = false) \/
  (stdout r = ["Checking u"; both_ok]
   /\ exit_code r = 0%nat
   /\ test_ne "200" 200 = false /\ test_ne "500" 200 = false).
Proof.
  apply (check_site_verdicts "u" {| curl_status := 0; http_code := "200" |}
           {| curl_status := 0; http_code := "500" |}); reflexivity.
Defined.

Example check_site_both_200 :
  check_site "u" {| curl_status := 0; http_code := "200" |}
                 {| curl_status := 0; http_code := "200" |}
  = {| stdout := ["Checking u"; both_ok]; exit_code := 0 |}.
Proof. reflexivity. Qed.

Example check_site_index_down :
  exit_code (check_site "u" {| curl_status := 0; http_code := "503" |}
                            {| curl_status := 0; http_code := "200" |}) = 2%nat.
Proof. reflexivity. Qed.

(** With [set -e], a curl that cannot connect ends the script with
    curl's own status before any status code is tested. *)
Example check_site_curl_fails :
  exit_code (check_site "u" {| curl_status := 7; http_code := "000" |}
                            {| curl_status := 0; http_code := "200" |}) = 7%nat.
Proof. reflexivity. Qed.

End CheckSite.

(** ** Binary64 comparisons

    Python's [float] is IEEE 754 binary64, Rocq's primitive [float]: the
    same values, the same rounding of [+] and [*] to the nearest value
    (ties to even), the same comparisons, false on NaN. *)

Module Binary64.

Local Open Scope float_scope.

Lemma compare_cont_spec (m1 m2 : positive) :
  CompareSpec (m1 = m2) (m1 < m2)%positive (m2 < m1)%positive
    (PosDef.Pos.compare_cont Eq m1 m2).
Proof. exact (Pos.compare_spec m1 m2). Qed.

(** Finite values of one sign compare by exponent, then by mantissa. *)
Ltac order_cases :=
  repeat match goal with
         | |- context [(?a ?= ?b)%Z] => destruct (Z.compare_spec a b)
         | H : context [(?a ?= ?b)%Z] |- _ => destruct (Z.compare_spec a b)
         | |- context [PosDef.Pos.compare_cont Eq ?a ?b] =>
             destruct (compare_cont_spec a b)
         | H : context [PosDef.Pos.compare_cont Eq ?a ?b] |- _ =>
             destruct (compare_cont_spec a b)
         end;
  cbn in *; try discriminate; try reflexivity; try lia.

Lemma SFleb_ltb_trans (x y z : spec_float) :
  SFleb x y = true -> SFltb y z = true -> SFltb x z = true.
Proof.
  unfold SFleb, SFltb.
  destruct x as [[ | ] | [ | ] | | [ | ] mx ex],
           y as [[ | ] | [ | ] | | [ | ] my ey],
           z as [[ | ] | [ | ] | | [ | ] mz ez];
    cbn; try discriminate; try reflexivity; intros H1 H2; order_cases.
Qed.

Lemma SFltb_trans (x y z : spec_float) :
  SFltb x y = true -> SFltb y z = true -> SFltb x z = true.
Proof.
  unfold SFltb.
  destruct x as [[ | ] | [ | ] | | [ | ] mx ex],
           y as [[ | ] | [ | ] | | [ | ] my ey],
           z as [[ | ] | [ | ] | | [ | ] mz ez];
    cbn; try discriminate; try reflexivity; intros H1 H2; order_cases.
Qed.

Lemma SFleb_not_ltb (x y : spec_float) :
  SFleb y x = true -> SFltb x y = false.
Proof.
  unfold SFleb, SFltb.
  destruct x as [[ | ] | [ | ] | | [ | ] mx ex],
           y as [[ | ] | [ | ] | | [ | ] my ey];
    cbn; try discriminate; try reflexivity; intros H1; order_cases.
Qed.

Lemma SFltb_total (x y : spec_float) :
  SFltb x y = false -> x <> S754_nan -> y <> S754_nan -> SFleb y x = true.
Proof.
  unfold SFleb, SFltb.
  destruct x as [[ | ] | [ | ] | | [ | ] mx ex],
           y as [[ | ] | [ | ] | | [ | ] my ey];
    cbn; try discriminate; try reflexivity; intros H1 H2 H3;
    try congruence; order_cases.
Qed.

Lemma SFltb_not_nan (x y : spec_float) :
  SFltb x y = true -> x <> S754_nan /\ y <> S754_nan.
Proof.
  unfold SFltb. destruct x, y; cbn; try discriminate; intros _; split; discriminate.
Qed.

Lemma leb_ltb_trans (x y z : float) :
  (x <=? y) = true -> (y <? z) = true -> (x <? z) = true.
Proof. rewrite leb_spec, !ltb_spec. apply SFleb_ltb_trans. Qed.

Lemma ltb_trans (x y z : float) :
  (x <? y) = true -> (y <? z) = true -> (x <? z) = true.
Proof. rewrite !ltb_spec. apply SFltb_trans. Qed.

Lemma leb_not_ltb (x y : float) : (y <=? x) = true -> (x <? y) = false.
Proof. rewrite leb_spec, ltb_spec. apply SFleb_not_ltb. Qed.

(** A value below some bound is no NaN, so it is ordered with every [y]
    that is no NaN either. *)
Lemma ltb_false_leb (x y z : float) :
  (x <? y) = false -> (x <? z) = true -> (y <=? y) = true -> (y <=? x) = true.
Proof.
  rewrite leb_spec, !ltb_spec, leb_spec. intros H1 H2 H3.
  apply SFltb_total; [exact H1 | apply (SFltb_not_nan _ _ H2) | ].
  intros E. rewrite E in H3. discriminate H3.
Qed.

(** The rational a finite value stands for. *)
Definition exact (x : float) : option Q :=
  match Prim2SF x with
  | S754_zero _ => Some 0%Q
  | S754_finite s m e =>
      Some ((if s then - inject_Z (Zpos m) else inject_Z (Zpos m)) * 2 ^ e)%Q
  | S754_infinity _ | S754_nan => None
  end.

End Binary64.

(** ** The design document: Dynamic-K (13.1) and the dual update (13.3) *)

Module DynamicK.

Import Binary64.
Local Open Scope float_scope.
Local Open Scope result_scope.

Section Selector.

(** The helpers the document calls but does not define; what they return
    is used as a float ([True] and [False] multiply as 1.0 and 0.0). *)
Variables Query Context Domain : Type.
Variable is_long : Query -> float.
Variable retrieval_thin : option Context -> float.
Variable domain_risk : Domain -> float.
(** The attribute [ctx.domain]. *)
Variable domain : Context -> Domain.

(** [ctx] is a context object or Python's [None], the default of
    [pipeline]; an attribute of [None] cannot be read. *)
Definition getattr_domain (ctx : option Context) : result Domain :=
  match ctx with
  | Some c => Return (domain c)
  | None => Raise AttributeError
  end.

Definition risk_estimate (query : Query) (ctx : option Context) : result float :=
  let r := 0.0 in
  let r := r + 0.3 * is_long query in
  let r := r + 0.4 * retrieval_thin ctx in
  d <- getattr_domain ctx ;;
  let r := r + 0.3 * domain_risk d in
  Return r.

(** [1 if r < 0.33 else (3 if r < 0.66 else 5)] *)
Definition k_of_risk (r : float) : nat :=
  if r <? 0.33 then 1%nat
  else if r <? 0.66 then 3%nat
  else 5%nat.

Definition dynamic_k (query : Query) (ctx : option Context) : result nat :=
  r <- risk_estimate query ctx ;;
  Return (k_of_risk r).

(** The weights of the three terms. *)
Definition w_length : float := 0.3.
Definition w_retrieval : float := 0.4.
Definition w_domain : float := 0.3.

(** The weights are non-negative and sum to 1, in binary64 arithmetic
    and also exactly, as the rationals they stand for. *)
Lemma weights_convex :
  ((0 <=? w_length) = true /\ (0 <=? w_retrieval) = true /\
   (0 <=? w_domain) = true /\ w_length + w_retrieval + w_domain = 1) /\
  (exists a b c : Q,
     exact w_length = Some a /\ exact w_retrieval = Some b /\
     exact w_domain = Some c /\ (a + b + c == 1)%Q).
Proof.
  split; [repeat split | ].
  eexists _, _, _. repeat split.
Qed.

Lemma k_of_risk_low (r : float) : (r <? 0.33) = true -> k_of_risk r = 1%nat.
Proof. intros H. unfold k_of_risk. rewrite H. reflexivity. Qed.

Lemma k_of_risk_mid (r : float) :
  (0.33 <=? r) = true -> (r <? 0.66) = true -> k_of_risk r = 3%nat.
Proof.
  intros H1 H2. unfold k_of_risk.
  rewrite (leb_not_ltb _ _ H1), H2. reflexivity.
Qed.

Lemma below_cuts (r : float) : (r <? 0.33) = true -> (r <? 0.66) = true.
Proof. intros H. apply (ltb_trans _ _ _ H). reflexivity. Qed.

Lemma k_of_risk_high (r : float) : (r <? 0.66) = false -> k_of_risk r = 5%nat.
Proof.
  intros H. unfold k_of_risk. rewrite H.
  destruct (r <? 0.33) eqn:L; [ | reflexivity].
  rewrite (below_cuts _ L) in H. discriminate H.
Qed.

Lemma risk_estimate_some (query : Query) (c : Context) :
  risk_estimate query (Some c)
  = Return (0.0 + 0.3 * is_long query + 0.4 * retrieval_thin (Some c)
            + 0.3 * domain_risk (domain c)).
Proof. reflexivity. Qed.

(** The default context of [pipeline]: no [K] is computed. *)
Lemma dynamic_k_none (query : Query) :
  dynamic_k query None = Raise AttributeError.
Proof. reflexivity. Qed.

(** C3. For every query and context object, [dynamic_k] computes the risk
    estimate as the combination of its three terms with the fixed
    weights 0.3, 0.4, 0.3, which are non-negative and sum to 1, in
    binary64 arithmetic, and maps it to K by the cut points: 1 when the
    estimate is below 0.33, 3 when it is at least 0.33 and below 0.66,
    and 5 in every other case; inputs with equal terms get the same K. *)
Theorem dynamic_k_cut_points (query : Query) (c : Context) :
  let r := 0.0 + w_length * is_long query
           + w_retrieval * retrieval_thin (Some c)
           + w_domain * domain_risk (domain c) in
  risk_estimate query (Some c) = Return r /\
  ((0 <=? w_length) = true /\ (0 <=? w_retrieval) = true /\
   (0 <=? w_domain) = true /\ w_length + w_retrieval + w_domain = 1) /\
  (exists k : nat,
     dynamic_k query (Some c) = Return k /\
     ((r <? 0.33) = true -> k = 1%nat) /\
     ((0.33 <=? r) = true -> (r <? 0.66) = true -> k = 3%nat) /\
     ((r <? 0.33) = false -> (0.33 <=? r) && (r <? 0.66) = false ->
      k = 5%nat) /\
     ((0.66 <=? r) = true -> k = 5%nat)) /\
  (forall (query' : Query) (c' : Context),
     is_long query' = is_long query ->
     retrieval_thin (Some c') = retrieval_thin (Some c) ->
     domain_risk (domain c') = domain_risk (domain c) ->
     dynamic_k query' (Some c') = dynamic_k query (Some c)).
Proof.
  cbv zeta. unfold w_length, w_retrieval, w_domain.
  split; [apply risk_estimate_some | ].
  split; [exact (proj1 weights_convex) | ].
  split.
  - eexists. split.
    + unfold dynamic_k. rewrite risk_estimate_some. reflexivity.
    + split; [apply k_of_risk_low | ].
      split; [apply k_of_risk_mid | ].
      split.
      * intros L M. apply k_of_risk_high.
        destruct (_ <? 0.66) eqn:H; [ | reflexivity].
        rewrite (ltb_false_leb _ _ _ L H eq_refl) in M. discriminate M.
      * intros H. apply k_of_risk_high. apply leb_not_ltb. exact H.
  - intros query' c' EL ET ED.
    unfold dynamic_k. rewrite !risk_estimate_some, EL, ET, ED. reflexivity.
Qed.

Lemma k_of_risk_values (r : float) :
  k_of_risk r = 1%nat \/ k_of_risk r = 3%nat \/ k_of_risk r = 5%nat.
Proof.
  unfold k_of_risk.
  destruct (r <? 0.33); [tauto | ].
  destruct (r <? 0.66); tauto.
Qed.

(** Whatever its helpers return, [dynamic_k] answers a context object
    with 1, 3 or 5, and a higher risk estimate never gets a smaller K. *)
Theorem dynamic_k_range_monotone (query : Query) (c : Context) :
  (exists k : nat,
     dynamic_k query (Some c) = Return k /\
     (k = 1%nat \/ k = 3%nat \/ k = 5%nat)) /\
  (forall r r' : float, (r <=? r') = true -> (k_of_risk r <= k_of_risk r')%nat).
Proof.
  split.
  - eexists. split.
    + unfold dynamic_k. rewrite risk_estimate_some. reflexivity.
    + apply k_of_risk_values.
  - intros r r' H. unfold k_of_risk.
    destruct (r' <? 0.33) eqn:A'.
    { rewrite (leb_ltb_trans _ _ _ H A'). apply Nat.le_refl. }
    destruct (r <? 0.33); [destruct (r' <? 0.66); auto with arith | ].
    destruct (r' <? 0.66) eqn:B'.
    { rewrite (leb_ltb_trans _ _ _ H B'). apply Nat.le_refl. }
    destruct (r <? 0.66); auto with arith.
Qed.


End Selector.

(** Queries are named by their length, contexts by their domain. *)
Definition sample_is_long (q : nat) : float := if (100 <=? q)%nat then 1 else 0.
Definition sample_retrieval_thin (ctx : option nat) : float :=
  match ctx with Some _ => 0 | None => 1 end.
Definition sample_domain_risk (d : nat) : float :=
  if (d =? 0)%nat then 0 else if (d =? 1)%nat then 0.1 else 1.

Definition sample_dynamic_k : nat -> option nat -> result nat :=
  dynamic_k nat nat nat sample_is_long sample_retrieval_thin
    sample_domain_risk (fun c => c).

(** A long query in a risky domain with rich retrieval: K = 3. *)
Example dynamic_k_long_risky : sample_dynamic_k 120%nat (Some 7%nat) = Return 3%nat.
Proof. vm_compute. reflexivity. Qed.

(** Rounding at a cut point: for the terms 1, 0 and 0.1 the sum of the
    decimal weights is 0.33, but the binary64 estimate is the value just
    below the binary64 cut, so K is 1. *)
Example dynamic_k_rounds_below_cut :
  risk_estimate nat nat nat sample_is_long sample_retrieval_thin
    sample_domain_risk (fun c => c) 120%nat (Some 1%nat)
  = Return 0.32999999999999996 /\
  sample_dynamic_k 120%nat (Some 1%nat) = Return 1%nat.
Proof. split; vm_compute; reflexivity. Qed.

End DynamicK.

Module Calibrator.

Local Open Scope Q_scope.

(** The multipliers of the CMDP controller and the conformal threshold. *)
Record DualState : Type := {
  lambda : Q;
  mu : Q;
  tau : Q
}.

(** Python's [max(a, b)]: [b] when it is greater, else [a]. *)
Definition py_max (a b : Q) : Q :=
  if Qlt_le_dec a b then b else a.

(** The two assignments of 13.3, with [B] the budget and [alpha] the
    risk cap. *)
Definition dual_update (st : DualState)
    (eta observed_cost B observed_risk alpha : Q) : DualState :=
  {| lambda := py_max 0 (lambda st + eta * (observed_cost - B));
     mu := py_max 0 (mu st + eta * (observed_risk - alpha));
     tau := tau st |}.

Definition dual_nonneg (st : DualState) : Prop :=
  0 <= lambda st /\ 0 <= mu st.

Lemma py_max_zero_nonneg (x : Q) : 0 <= py_max 0 x.
Proof.
  unfold py_max. destruct (Qlt_le_dec 0 x) as [H | H].
  - apply Qlt_le_weak. exact H.
  - apply Qle_refl.
Qed.

Lemma py_max_zero_spec (x : Q) : py_max 0 x == Qmax 0 x.
Proof.
  unfold py_max. destruct (Qlt_le_dec 0 x) as [H | H].
  - symmetry. apply Q.max_r. apply Qlt_le_weak. exact H.
  - symmetry. apply Q.max_l. exact H.
Qed.

(** C4. Starting from non-negative multipliers, with a positive step
    size, the update leaves both multipliers non-negative, whatever the
    observed cost and risk, the budget and the risk cap; each is the
    maximum of 0 and the stepped value. *)
Theorem dual_update_nonneg (st : DualState)
    (eta observed_cost B observed_risk alpha : Q) :
  dual_nonneg st ->
  0 < eta ->
  let st' := dual_update st eta observed_cost B observed_risk alpha in
  dual_nonneg st' /\
  lambda st' == Qmax 0 (lambda st + eta * (observed_cost - B)) /\
  mu st' == Qmax 0 (mu st + eta * (observed_risk - alpha)).
Proof.
  intros _ _ st'. subst st'. unfold dual_nonneg, dual_update.
  cbn [lambda mu].
  split; [split; apply py_max_zero_nonneg | ].
  split; apply py_max_zero_spec.
Qed.

Lemma py_max_zero_step (x d : Q) :
  0 <= x ->
  (0 <= d -> x <= py_max 0 (x + d)) /\
  (d <= 0 -> py_max 0 (x + d) <= x).
Proof.
  intros Hx. unfold py_max.
  destruct (Qlt_le_dec 0 (x + d)) as [H | H]; split; intros Hd; lra.
Qed.

(** The update moves each multiplier towards its constraint: a cost at
    or above the budget never lowers [lambda], a cost at or below it
    never raises it, and the same for [mu] and the risk cap. *)
Theorem dual_update_direction (st : DualState)
    (eta observed_cost B observed_risk alpha : Q) :
  dual_nonneg st ->
  0 < eta ->
  let st' := dual_update st eta observed_cost B observed_risk alpha in
  (B <= observed_cost -> lambda st <= lambda st') /\
  (observed_cost <= B -> lambda st' <= lambda st) /\
  (alpha <= observed_risk -> mu st <= mu st') /\
  (observed_risk <= alpha -> mu st' <= mu st).
Proof.
  intros [Hl Hm] He st'. subst st'. unfold dual_update. cbn [lambda mu].
  destruct (py_max_zero_step (lambda st) (eta * (observed_cost - B)) Hl)
    as [L1 L2].
  destruct (py_max_zero_step (mu st) (eta * (observed_risk - alpha)) Hm)
    as [M1 M2].
  repeat split; intros H.
  - apply L1. apply Qmult_le_0_compat; lra.
  - apply L2. rewrite <- (Qmult_0_r eta). apply Qmult_le_l; lra.
  - apply M1. apply Qmult_le_0_compat; lra.
  - apply M2. rewrite <- (Qmult_0_r eta). apply Qmult_le_l; lra.
Qed.

(** The objective of 13.3:
    [L = U(a; x) - lambda * (cost(x,a) - B) - mu * (risk(x,a) - alpha)],
    for the utility, cost and risk of one action. *)
Definition lagrangian (st : DualState) (U cost B risk alpha : Q) : Q :=
  U - lambda st * (cost - B) - mu st * (risk - alpha).

(** The update and the objective together: after an update that saw the
    budget and the risk cap exceeded, no action that itself exceeds both
    scores higher than before; and with non-negative multipliers an
    action within both constraints scores at least its utility. *)
Theorem dual_update_penalises (st : DualState)
    (eta observed_cost B observed_risk alpha U cost risk : Q) :
  dual_nonneg st ->
  0 < eta ->
  let st' := dual_update st eta observed_cost B observed_risk alpha in
  (B <= observed_cost -> alpha <= observed_risk ->
   B <= cost -> alpha <= risk ->
   lagrangian st' U cost B risk alpha <= lagrangian st U cost B risk alpha) /\
  (cost <= B -> risk <= alpha ->
   U <= lagrangian st' U cost B risk alpha).
Proof.
  intros [Hl Hm] He st'. subst st'. unfold lagrangian, dual_update.
  cbn [lambda mu].
  set (l' := py_max 0 (lambda st + eta * (observed_cost - B))).
  set (m' := py_max 0 (mu st + eta * (observed_risk - alpha))).
  pose proof (py_max_zero_nonneg (lambda st + eta * (observed_cost - B))) as Pl.
  pose proof (py_max_zero_nonneg (mu st + eta * (observed_risk - alpha))) as Pm.
  fold l' in Pl. fold m' in Pm.
  split.
  - intros HB HA Hc Hr.
    destruct (py_max_zero_step (lambda st) (eta * (observed_cost - B)) Hl)
      as [L1 _].
    destruct (py_max_zero_step (mu st) (eta * (observed_risk - alpha)) Hm)
      as [M1 _].
    assert (lambda st <= l') as Gl
      by (apply L1; apply Qmult_le_0_compat; lra).
    assert (mu st <= m') as Gm
      by (apply M1; apply Qmult_le_0_compat; lra).
    assert (0 <= (l' - lambda st) * (cost - B)) as X
      by (apply Qmult_le_0_compat; lra).
    assert (0 <= (m' - mu st) * (risk - alpha)) as Y
      by (apply Qmult_le_0_compat; lra).
    lra.
  - intros Hc Hr.
    assert (0 <= l' * (B - cost)) as X by (apply Qmult_le_0_compat; lra).
    assert (0 <= m' * (alpha - risk)) as Y by (apply Qmult_le_0_compat; lra).
    lra.
Qed.

Definition dual_init : DualState := {| lambda := 0; mu := 0; tau := 0 |}.

(** An update that overshoots below zero is projected back to 0. *)
Lemma dual_update_nonneg_witness :
  let st' := dual_update dual_init 0.1 3 10 0.5 0.2 in
  dual_nonneg st' /\
  lambda st' == Qmax 0 (0 + 0.1 * (3 - 10)) /\
  mu st' == Qmax 0 (0 + 0.1 * (0.5 - 0.2)).
Proof.
  apply (dual_update_nonneg dual_init 0.1 3 10 0.5 0.2).
  - unfold dual_nonneg, dual_init. cbn. split; apply Qle_refl.
  - reflexivity.
Defined.

Lemma dual_update_direction_witness :
  let st' := dual_update dual_init 0.1 30 10 0.1 0.2 in
  (10 <= 30 -> lambda dual_init <= lambda st') /\
  (30 <= 10 -> lambda st' <= lambda dual_init) /\
  (0.2 <= 0.1 -> mu dual_init <= mu st') /\
  (0.1 <= 0.2 -> mu st' <= mu dual_init).
Proof.
  apply (dual_update_direction dual_init 0.1 30 10 0.1 0.2).
  - unfold dual_nonneg, dual_init. cbn. split; apply Qle_refl.
  - reflexivity.
Defined.

Lemma dual_update_penalises_witness :
  let st' := dual_update dual_init 0.1 30 10 0.5 0.2 in
  (10 <= 30 -> 0.2 <= 0.5 -> 10 <= 25 -> 0.2 <= 0.4 ->
   lagrangian st' 1 25 10 0.4 0.2 <= lagrangian dual_init 1 25 10 0.4 0.2) /\
  (25 <= 10 -> 0.4 <= 0.2 -> 1 <= lagrangian st' 1 25 10 0.4 0.2).
Proof.
  apply (dual_update_penalises dual_init 0.1 30 10 0.5 0.2 1 25 0.4).
  - unfold dual_nonneg, dual_init. cbn. split; apply Qle_refl.
  - reflexivity.
Defined.

Example lagrangian_after_update :
  lagrangian (dual_update dual_init 0.1 30 10 0.5 0.2) 1 25 10 0.4 0.2
  == 1 - 2 * 15 - 0.03 * 0.2.
Proof. vm_compute. reflexivity. Qed.

Example dual_update_projects :
  lambda (dual_update dual_init 0.1 3 10 0.5 0.2) = 0.
Proof. reflexivity. Qed.

End Calibrator.

(** ** The evidence page: [renderHallucinationTable], both versions *)

Module Evidence.

Local Open Scope string_scope.
Local Open Scope result_scope.

(** A JavaScript number: a finite value, NaN or an infinity. *)
Inductive num : Type :=
| NaN
| Fin (q : Q)
| Inf (negative : bool).

(** What [JSON.parse] builds, and [undefined], which reading a missing
    property gives. An object is the list of its own properties in
    enumeration order; of two entries with one key the first counts. *)
Inductive jsval : Type :=
| JUndefined
| JNull
| JBool (b : bool)
| JNum (n : num)
| JStr (s : string)
| JArr (items : list jsval)
| JObj (props : list (string * jsval)).

Definition object : Type := list (string * jsval).

Fixpoint lookup (k : string) (props : object) : option jsval :=
  match props with
  | [] => None
  | (k', v) :: rest => if (k' =? k)%string then Some v else lookup k rest
  end.

Definition has_key (k : string) (props : object) : bool :=
  match lookup k props with Some _ => true | None => false end.

Fixpoint mem (k : string) (ks : list string) : bool :=
  match ks with
  | [] => false
  | k' :: rest => (k' =? k)%string || mem k rest
  end.

Fixpoint dedup (seen ks : list string) : list string :=
  match ks with
  | [] => []
  | k :: rest => if mem k seen then dedup seen rest else k :: dedup (k :: seen) rest
  end.

(** The keys [for (const k in o)] visits. *)
Definition own_keys (props : object) : list string :=
  dedup [] (map fst props).

(** [o[k]] for an own key, [undefined] otherwise. *)
Definition get_own (props : object) (k : string) : jsval :=
  match lookup k props with
  | Some v => v
  | None => JUndefined
  end.

Definition nullish (v : jsval) : bool :=
  match v with
  | JUndefined | JNull => true
  | _ => false
  end.

(** [v.k] for the names this script reads ([Base], [MStack],
    [SelfConsistency], [JudgeGate], [hallucination_rate]): none of them
    is an index or a property of a built-in prototype, so only an object
    can have one. *)
Definition get (v : jsval) (k : string) : result jsval :=
  match v with
  | JUndefined | JNull => Raise TypeError
  | JObj props => Return (get_own props k)
  | JBool _ | JNum _ | JStr _ | JArr _ => Return JUndefined
  end.

(** [v?.k] *)
Definition get_opt (v : jsval) (k : string) : result jsval :=
  if nullish v then Return JUndefined else get v k.

Definition num_truthy (n : num) : bool :=
  match n with
  | NaN => false
  | Fin q => negb (Qeq_bool q 0)
  | Inf _ => true
  end.

Definition truthy (v : jsval) : bool :=
  match v with
  | JUndefined | JNull => false
  | JBool b => b
  | JNum n => num_truthy n
  | JStr s => negb (s =? "")%string
  | JArr _ | JObj _ => true
  end.

(** [n * 100] *)
Definition times100 (n : num) : num :=
  match n with
  | NaN => NaN
  | Fin q => Fin (q * 100)
  | Inf s => Inf s
  end.

(** [n || 0] *)
Definition or_zero (n : num) : num :=
  if num_truthy n then n else Fin 0.

Definition dec (z : Z) : string :=
  NilZero.string_of_uint (N.to_uint (Z.to_N z)).

Section Runtime.

(** Three conversions of the language that the script can reach and that
    are left open here: a string read as a number, an array read as a
    number (through [join], which can throw), and the exponent form that
    [toFixed] falls back to from 10^21 on. *)
Variable string_to_number : string -> num.
Variable array_to_number : list jsval -> result num.
Variable large_to_string : Q -> string.

(** ToNumber. An object is first turned into a primitive: the inherited
    [valueOf] gives back the object, and [toString] gives
    "[object Object]", which reads as NaN; an own [toString] property
    hides the inherited one and, coming from JSON, cannot be called, so
    the conversion throws. *)
Definition to_number (v : jsval) : result num :=
  match v with
  | JUndefined => Return NaN
  | JNull => Return (Fin 0)
  | JBool b => Return (Fin (if b then 1 else 0))
  | JNum n => Return n
  | JStr s => Return (string_to_number s)
  | JArr items => array_to_number items
  | JObj props =>
      if has_key "toString" props then Raise TypeError else Return NaN
  end.

(** [q.toFixed(1)] for a finite [q]: the sign, then the nearest multiple
    of 1/10 (the larger of two), as digits. The value is taken exactly: a
    double that only approximates a midpoint such as 0.15 rounds by its
    own binary value. *)
Definition fixed1 (q : Q) : string :=
  let s := if (Qnum q <? 0)%Z then "-" else "" in
  let a := Z.abs (Qnum q) in
  let b := Zpos (Qden q) in
  if (10 ^ 21 * b <=? a)%Z then s ++ large_to_string (Qabs q)
  else
    let n := ((20 * a + b) / (2 * b))%Z in
    s ++ dec (n / 10) ++ "." ++ dec (n mod 10).

Definition to_fixed1 (n : num) : string :=
  match n with
  | NaN => "NaN"
  | Inf false => "Infinity"
  | Inf true => "-Infinity"
  | Fin q => fixed1 q
  end.

(** A table row is the list of its cells, each the markup the template
    puts between [<td>] and [</td>]; [insertRow()] appends an empty row. *)
Definition row : Type := list string.

(** [for (const domain in results) body]: stops at the first exception. *)
Fixpoint for_in (body : string -> list row -> list row * result unit)
    (keys : list string) (tbody : list row) : list row * result unit :=
  match keys with
  | [] => (tbody, Return tt)
  | k :: rest =>
      match body k tbody with
      | (tbody', Return _) => for_in body rest tbody'
      | (tbody', Raise e) => (tbody', Raise e)
      end
  end.

(** [results[domain].Base && results[domain].MStack], as a condition. *)
Definition has_base_and_mstack (results : object) (domain : string) : result bool :=
  b <- get (get_own results domain) "Base" ;;
  if truthy b then
    m <- get (get_own results domain) "MStack" ;;
    Return (truthy m)
  else Return false.

(** The body both versions share: the condition, [insertRow()], then the
    assignment to [innerHTML], whose right-hand side may throw and then
    leaves the new row empty. *)
Definition row_body (results : object) (cells : object -> string -> result row)
    (domain : string) (tbody : list row) : list row * result unit :=
  match has_base_and_mstack results domain with
  | Raise e => (tbody, Raise e)
  | Return false => (tbody, Return tt)
  | Return true =>
      match cells results domain with
      | Raise e => ((tbody ++ [[]])%list, Raise e)
      | Return r => ((tbody ++ [r])%list, Return tt)
      end
  end.

Definition strong (s : string) : string := "<strong>" ++ s ++ "</strong>".

Definition percent (n : num) : string := to_fixed1 n ++ "%".

(** *** src/mstack-site/evidence.js *)

(** [(results[domain].X.hallucination_rate * 100).toFixed(1)}%] *)
Definition cell_plain (entry : jsval) (system : string) : result string :=
  o <- get entry system ;;
  r <- get o "hallucination_rate" ;;
  n <- to_number r ;;
  Return (percent (times100 n)).

Definition cells_site (results : object) (domain : string) : result row :=
  let entry := get_own results domain in
  c1 <- cell_plain entry "Base" ;;
  c2 <- cell_plain entry "SelfConsistency" ;;
  c3 <- cell_plain entry "JudgeGate" ;;
  c4 <- cell_plain entry "MStack" ;;
  Return [domain; c1; c2; c3; strong c4].

Definition renderHallucinationTable_site (results : object) (tbody : list row)
    : list row * result unit :=
  for_in (row_body results cells_site) (own_keys results) tbody.

(** *** src/unnamed/part_000 *)

(** [(results[domain].X.hallucination_rate * 100 || 0).toFixed(1)}%] *)
Definition cell_or_zero (entry : jsval) (system : string) : result string :=
  o <- get entry system ;;
  r <- get o "hallucination_rate" ;;
  n <- to_number r ;;
  Return (percent (or_zero (times100 n))).

(** [(results[domain].X?.hallucination_rate * 100 || 0).toFixed(1)}%] *)
Definition cell_optional (entry : jsval) (system : string) : result string :=
  o <- get entry system ;;
  r <- get_opt o "hallucination_rate" ;;
  n <- to_number r ;;
  Return (percent (or_zero (times100 n))).

Definition cells (results : object) (domain : string) : result row :=
  let entry := get_own results domain in
  c1 <- cell_or_zero entry "Base" ;;
  c2 <- cell_optional entry "SelfConsistency" ;;
  c3 <- cell_optional entry "JudgeGate" ;;
  c4 <- cell_or_zero entry "MStack" ;;
  Return [domain; c1; c2; c3; strong c4].

Definition renderHallucinationTable (results : object) (tbody : list row)
    : list row * result unit :=
  for_in (row_body results cells) (own_keys results) tbody.

(** *** What the two versions do, entry by entry *)

(** [v.k] without the exception: [undefined] on everything but objects. *)
Definition field (v : jsval) (k : string) : jsval :=
  match v with
  | JObj props => get_own props k
  | _ => JUndefined
  end.

(** The value of [entry.system?.hallucination_rate]. *)
Definition rate_value (entry : jsval) (system : string) : jsval :=
  let o := field entry system in
  if nullish o then JUndefined else field o "hallucination_rate".

(** The condition of the loop on an entry. *)
Definition eligible (results : object) (domain : string) : bool :=
  truthy (field (get_own results domain) "Base")
  && truthy (field (get_own results domain) "MStack").

(** JavaScript's objects: records and arrays. *)
Definition is_object (v : jsval) : bool :=
  match v with
  | JObj _ | JArr _ => true
  | _ => false
  end.

Definition converts (v : jsval) : Prop :=
  exists n : num, to_number v = Return n.

Definition systems : list string :=
  ["Base"; "SelfConsistency"; "JudgeGate"; "MStack"].

(** The text part_000 shows for a rate: the percentage, 0.0% when the
    rate is missing, zero or not a number. *)
Definition shown (entry : jsval) (system : string) : string :=
  match to_number (rate_value entry system) with
  | Return n => percent (or_zero (times100 n))
  | Raise _ => ""
  end.

Definition shown_row (results : object) (domain : string) : row :=
  let entry := get_own results domain in
  [domain; shown entry "Base"; shown entry "SelfConsistency";
   shown entry "JudgeGate"; strong (shown entry "MStack")].

Lemma get_field (v : jsval) (k : string) :
  nullish v = false -> get v k = Return (field v k).
Proof.
  destruct v; cbn; intros H; try discriminate H; reflexivity.
Qed.

Lemma truthy_not_nullish (v : jsval) : truthy v = true -> nullish v = false.
Proof.
  destruct v; cbn; intros H; try discriminate H; reflexivity.
Qed.

Lemma field_truthy_object (v : jsval) (k : string) :
  truthy (field v k) = true -> nullish v = false.
Proof.
  destruct v; cbn; intros H; try discriminate H; reflexivity.
Qed.

Lemma has_base_and_mstack_eligible (results : object) (domain : string) :
  nullish (get_own results domain) = false ->
  has_base_and_mstack results domain = Return (eligible results domain).
Proof.
  intros H. unfold has_base_and_mstack, eligible.
  rewrite !get_field by exact H. cbn [bind].
  destruct (truthy (field (get_own results domain) "Base")); reflexivity.
Qed.

Lemma has_base_and_mstack_null (results : object) (domain : string) :
  nullish (get_own results domain) = true ->
  has_base_and_mstack results domain = Raise TypeError.
Proof.
  unfold has_base_and_mstack.
  destruct (get_own results domain); cbn; intros H;
    try discriminate H; reflexivity.
Qed.

Lemma is_object_not_nullish (v : jsval) : is_object v = true -> nullish v = false.
Proof.
  destruct v; cbn; intros H; try discriminate H; reflexivity.
Qed.

Lemma fixed1_zero (q : Q) : Qeq_bool q 0 = true -> fixed1 q = "0.0".
Proof.
  intros H. apply Qeq_bool_eq in H. unfold Qeq in H. cbn in H.
  rewrite Z.mul_1_r in H. unfold fixed1. rewrite H. cbn [Z.ltb Z.compare Z.abs].
  replace (10 ^ 21 * Z.pos (Qden q) <=? 0)%Z with false
    by (symmetry; apply Z.leb_gt; lia).
  replace ((20 * 0 + Z.pos (Qden q)) / (2 * Z.pos (Qden q)))%Z with 0%Z
    by (symmetry; apply Z.div_small; lia).
  reflexivity.
Qed.

Lemma percent_or_zero (n : num) :
  n <> NaN -> percent (or_zero (times100 n)) = percent (times100 n).
Proof.
  intros H. unfold or_zero.
  destruct (num_truthy (times100 n)) eqn:T; [reflexivity | ].
  destruct n as [ | q | s]; cbn in *; try congruence.
  unfold percent, to_fixed1. apply negb_false_iff in T.
  rewrite (fixed1_zero _ T). reflexivity.
Qed.

Lemma percent_missing : percent (or_zero (times100 NaN)) = "0.0%".
Proof. reflexivity. Qed.

(** A stricter cell and a guarded cell agree once the system is there. *)
Lemma cell_optional_shown (entry : jsval) (system : string) :
  nullish entry = false ->
  cell_optional entry system
  = n <- to_number (rate_value entry system) ;;
    Return (percent (or_zero (times100 n))).
Proof.
  intros H. unfold cell_optional, rate_value, get_opt.
  rewrite get_field by exact H. cbn [bind].
  destruct (nullish (field entry system)) eqn:N; [reflexivity | ].
  rewrite get_field by exact N. reflexivity.
Qed.

Lemma cell_or_zero_shown (entry : jsval) (system : string) :
  nullish entry = false ->
  nullish (field entry system) = false ->
  cell_or_zero entry system
  = n <- to_number (rate_value entry system) ;;
    Return (percent (or_zero (times100 n))).
Proof.
  intros H N. unfold cell_or_zero, rate_value.
  rewrite get_field by exact H. cbn [bind].
  rewrite get_field by exact N. rewrite N. reflexivity.
Qed.

Lemma cell_plain_shown (entry : jsval) (system : string) :
  nullish entry = false ->
  nullish (field entry system) = false ->
  cell_plain entry system
  = n <- to_number (rate_value entry system) ;;
    Return (percent (times100 n)).
Proof.
  intros H N. unfold cell_plain, rate_value.
  rewrite get_field by exact H. cbn [bind].
  rewrite get_field by exact N. rewrite N. reflexivity.
Qed.

Lemma for_in_ext (f g : string -> list row -> list row * result unit)
    (keys : list string) :
  (forall k tbody, In k keys -> f k tbody = g k tbody) ->
  forall tbody, for_in f keys tbody = for_in g keys tbody.
Proof.
  induction keys as [ | k rest IH]; intros E tbody; [reflexivity | ].
  cbn [for_in]. rewrite (E k tbody (or_introl eq_refl)).
  destruct (g k tbody) as [tbody' [ [] | e]]; [ | reflexivity].
  apply IH. intros k' tb Hin. apply E. right. exact Hin.
Qed.

Lemma for_in_rows (body : string -> list row -> list row * result unit)
    (keep : string -> bool) (line : string -> row) (keys : list string) :
  (forall k tbody, In k keys ->
     body k tbody
     = ((if keep k then tbody ++ [line k] else tbody)%list, Return tt)) ->
  forall tbody,
    for_in body keys tbody
    = ((tbody ++ map line (filter keep keys))%list, Return tt).
Proof.
  induction keys as [ | k rest IH]; intros E tbody.
  - cbn. rewrite app_nil_r. reflexivity.
  - cbn [for_in filter]. rewrite (E k tbody (or_introl eq_refl)).
    rewrite IH by (intros k' tb Hin; apply E; right; exact Hin).
    destruct (keep k); [ | reflexivity].
    cbn [map]. rewrite <- app_assoc. reflexivity.
Qed.

Lemma mem_true_iff (k : string) (ks : list string) : mem k ks = true <-> In k ks.
Proof.
  induction ks as [ | k' rest IH]; cbn.
  - split; [discriminate | contradiction].
  - rewrite orb_true_iff, IH, String.eqb_eq. reflexivity.
Qed.

Lemma dedup_fresh (ks seen : list string) (k : string) :
  In k (dedup seen ks) -> In k ks /\ ~ In k seen.
Proof.
  revert seen. induction ks as [ | k' rest IH]; intros seen; cbn.
  - contradiction.
  - destruct (mem k' seen) eqn:M.
    + intros H. apply IH in H. tauto.
    + intros [-> | H].
      * split; [left; reflexivity | ].
        intros Hin. apply mem_true_iff in Hin. congruence.
      * apply IH in H. cbn in H. tauto.
Qed.

Lemma dedup_nodup (ks seen : list string) : NoDup (dedup seen ks).
Proof.
  revert seen. induction ks as [ | k rest IH]; intros seen; cbn.
  - constructor.
  - destruct (mem k seen); [apply IH | ].
    constructor; [ | apply IH].
    intros Hin. apply dedup_fresh in Hin. cbn in Hin. tauto.
Qed.

Lemma own_keys_nodup (results : object) : NoDup (own_keys results).
Proof. apply dedup_nodup. Qed.

Lemma cells_shown_row (results : object) (domain : string) :
  nullish (get_own results domain) = false ->
  eligible results domain = true ->
  (forall system, In system systems ->
     converts (rate_value (get_own results domain) system)) ->
  cells results domain = Return (shown_row results domain).
Proof.
  intros N E C. unfold eligible in E. apply andb_true_iff in E as [EB EM].
  apply truthy_not_nullish in EB, EM.
  unfold cells, shown_row, shown.
  rewrite (cell_or_zero_shown _ _ N EB), (cell_or_zero_shown _ _ N EM).
  rewrite !cell_optional_shown by exact N.
  destruct (C "Base") as [n1 ->]; [cbn; tauto | ].
  destruct (C "SelfConsistency") as [n2 ->]; [cbn; tauto | ].
  destruct (C "JudgeGate") as [n3 ->]; [cbn; tauto | ].
  destruct (C "MStack") as [n4 ->]; [cbn; tauto | ].
  reflexivity.
Qed.

Lemma cell_plain_or_zero (entry : jsval) (system : string) :
  nullish entry = false ->
  nullish (field entry system) = false ->
  to_number (rate_value entry system) <> Return NaN ->
  cell_plain entry system = cell_or_zero entry system /\
  cell_plain entry system = cell_optional entry system.
Proof.
  intros N F C.
  rewrite (cell_plain_shown _ _ N F), (cell_or_zero_shown _ _ N F).
  rewrite cell_optional_shown by exact N.
  destruct (to_number (rate_value entry system)) as [n | e]; [ | split; reflexivity].
  cbn [bind]. rewrite percent_or_zero by congruence. split; reflexivity.
Qed.

Lemma for_in_appends (body : string -> list row -> list row * result unit)
    (keys : list string) :
  (forall k tbody, exists rows,
     fst (body k tbody) = (tbody ++ rows)%list /\ (List.length rows <= 1)%nat) ->
  forall tbody, exists rows,
    fst (for_in body keys tbody) = (tbody ++ rows)%list /\
    (List.length rows <= List.length keys)%nat.
Proof.
  intros B. induction keys as [ | k rest IH]; intros tbody; cbn [for_in].
  - exists []. rewrite app_nil_r. split; [reflexivity | apply Nat.le_refl].
  - destruct (B k tbody) as (rows & E & L).
    destruct (body k tbody) as [tbody' [ [] | e]]; cbn [fst] in E; subst tbody'.
    + destruct (IH (tbody ++ rows)%list) as (more & E' & L').
      exists (rows ++ more)%list. rewrite E', <- app_assoc.
      split; [reflexivity | ]. rewrite length_app. cbn [List.length]. lia.
    + exists rows. split; [reflexivity | ]. cbn [List.length]. lia.
Qed.

(** part_000 only appends: whatever the results object holds, and
    however the run ends, the rows that were in the table stay as they
    were, and at most one row per key is added. *)
Theorem render_only_appends (results : object) (tbody : list row) :
  exists rows : list row,
    fst (renderHallucinationTable results tbody) = (tbody ++ rows)%list /\
    (List.length rows <= List.length (own_keys results))%nat.
Proof.
  unfold renderHallucinationTable. apply for_in_appends.
  intros k tb. unfold row_body.
  destruct (has_base_and_mstack results k) as [[ | ] | e].
  - destruct (cells results k) as [r | e]; cbn [fst];
      eexists; (split; [reflexivity | apply Nat.le_refl]).
  - exists []. cbn [fst]. rewrite app_nil_r.
    split; [reflexivity | apply Nat.le_0_l].
  - exists []. cbn [fst]. rewrite app_nil_r.
    split; [reflexivity | apply Nat.le_0_l].
Qed.

(** The amended C10. On a results object whose domain values are objects
    and whose rates, where eligible entries have them, convert to numbers
    without throwing, part_000 returns normally having appended exactly
    the rows of the keys with truthy [Base] and [MStack], one per key and
    in enumeration order; a missing SelfConsistency or JudgeGate rate is
    shown as 0.0%. *)
Theorem render_one_row_per_eligible (results : object) (tbody : list row) :
  (forall d, In d (own_keys results) -> is_object (get_own results d) = true) ->
  (forall d system,
     In d (own_keys results) -> eligible results d = true ->
     In system systems -> converts (rate_value (get_own results d) system)) ->
  renderHallucinationTable results tbody
  = ((tbody ++ map (shown_row results)
                   (filter (eligible results) (own_keys results)))%list,
     Return tt) /\
  NoDup (own_keys results) /\
  (forall d system,
     system = "SelfConsistency" \/ system = "JudgeGate" ->
     rate_value (get_own results d) system = JUndefined ->
     nth_error (shown_row results d)
       (if (system =? "SelfConsistency")%string then 2 else 3)
     = Some "0.0%").
Proof.
  intros O C. split; [ | split; [apply own_keys_nodup | ]].
  - unfold renderHallucinationTable. apply for_in_rows.
    intros k tb Hin. unfold row_body.
    pose proof (is_object_not_nullish _ (O k Hin)) as N.
    rewrite (has_base_and_mstack_eligible _ _ N).
    destruct (eligible results k) eqn:E; [ | reflexivity].
    rewrite (cells_shown_row _ _ N E); [reflexivity | ].
    intros system Hs. apply (C k system Hin E Hs).
  - intros d system [-> | ->] R; cbn [String.eqb Ascii.eqb Bool.eqb nth_error shown_row];
      unfold shown; rewrite R; reflexivity.
Qed.

(** The amended C8. The two versions leave the same rows and end the same
    way on every results object in which each entry with truthy [Base]
    and [MStack] also has [SelfConsistency] and [JudgeGate] (neither
    undefined nor null) and none of its four rates converts to NaN. *)
Theorem renderers_agree (results : object) (tbody : list row) :
  (forall d,
     In d (own_keys results) -> eligible results d = true ->
     nullish (field (get_own results d) "SelfConsistency") = false /\
     nullish (field (get_own results d) "JudgeGate") = false /\
     forall system, In system systems ->
       to_number (rate_value (get_own results d) system) <> Return NaN) ->
  renderHallucinationTable_site results tbody
  = renderHallucinationTable results tbody.
Proof.
  intros H. unfold renderHallucinationTable_site, renderHallucinationTable.
  apply for_in_ext. intros k tb Hin. unfold row_body.
  destruct (nullish (get_own results k)) eqn:N.
  - rewrite (has_base_and_mstack_null _ _ N). reflexivity.
  - rewrite (has_base_and_mstack_eligible _ _ N).
    destruct (eligible results k) eqn:E; [ | reflexivity].
    destruct (H k Hin E) as (NS & NJ & C).
    pose proof E as E'. unfold eligible in E'.
    apply andb_true_iff in E' as [EB EM].
    apply truthy_not_nullish in EB, EM.
    assert (cells_site results k = cells results k) as ->; [ | reflexivity].
    unfold cells_site, cells.
    destruct (cell_plain_or_zero _ "Base" N EB) as [-> _]; [apply C; cbn; tauto | ].
    destruct (cell_plain_or_zero _ "SelfConsistency" N NS) as [_ ->];
      [apply C; cbn; tauto | ].
    destruct (cell_plain_or_zero _ "JudgeGate" N NJ) as [_ ->];
      [apply C; cbn; tauto | ].
    destruct (cell_plain_or_zero _ "MStack" N EM) as [-> _]; [apply C; cbn; tauto | ].
    reflexivity.
Qed.

(** *** How the two versions of the table fail *)

Lemma for_in_raises (body : string -> list row -> list row * result unit)
    (keys : list string) (k : string) :
  In k keys ->
  (forall tbody, exists e, snd (body k tbody) = Raise e) ->
  forall tbody, exists e, snd (for_in body keys tbody) = Raise e.
Proof.
  intros Hin Hk. induction keys as [ | k0 rest IH]; [contradiction | ].
  intros tbody. cbn [for_in].
  destruct (body k0 tbody) as [tbody' [ [] | e]] eqn:B.
  - destruct Hin as [-> | Hin].
    + destruct (Hk tbody) as [e He]. rewrite B in He. discriminate He.
    + apply IH. exact Hin.
  - exists e. reflexivity.
Qed.

Lemma cell_plain_missing (entry : jsval) (system : string) :
  nullish entry = false ->
  nullish (field entry system) = true ->
  cell_plain entry system = Raise TypeError.
Proof.
  intros N M. unfold cell_plain. rewrite get_field by exact N. cbn [bind].
  destruct (field entry system); try discriminate M; reflexivity.
Qed.

(** The site version cannot render a results object in which some entry
    with truthy [Base] and [MStack] lacks [SelfConsistency] or
    [JudgeGate]: whatever else the object holds, the run ends in an
    exception. *)
Theorem site_fails_without_system (results : object) (tbody : list row)
    (d : string) :
  In d (own_keys results) ->
  eligible results d = true ->
  nullish (field (get_own results d) "SelfConsistency") = true \/
  nullish (field (get_own results d) "JudgeGate") = true ->
  exists e : exn,
    snd (renderHallucinationTable_site results tbody) = Raise e.
Proof.
  intros Hin E M. unfold renderHallucinationTable_site.
  apply (for_in_raises _ _ d Hin). intros tb. unfold row_body.
  pose proof E as E'. unfold eligible in E'. apply andb_true_iff in E' as [EB _].
  pose proof (field_truthy_object _ _ EB) as N.
  rewrite (has_base_and_mstack_eligible _ _ N), E.
  assert (exists e, cells_site results d = Raise e) as [e ->];
    [ | exists e; reflexivity].
  unfold cells_site.
  destruct (cell_plain (get_own results d) "Base") as [c1 | e];
    [cbn [bind] | exists e; reflexivity].
  destruct (nullish (field (get_own results d) "SelfConsistency")) eqn:S.
  - rewrite (cell_plain_missing _ _ N S). exists TypeError. reflexivity.
  - destruct M as [M | M]; [discriminate M | ].
    destruct (cell_plain (get_own results d) "SelfConsistency") as [c2 | e];
      [cbn [bind] | exists e; reflexivity].
    rewrite (cell_plain_missing _ _ N M). exists TypeError. reflexivity.
Qed.

Lemma cell_plain_returns (entry : jsval) (system c : string) :
  cell_plain entry system = Return c ->
  (exists c', cell_or_zero entry system = Return c') /\
  (exists c', cell_optional entry system = Return c').
Proof.
  unfold cell_plain, cell_or_zero, cell_optional, get_opt.
  destruct (get entry system) as [o | e]; [cbn [bind] | discriminate].
  destruct (nullish o) eqn:N.
  { destruct o; try discriminate N; discriminate. }
  destruct (get o "hallucination_rate") as [r | e]; [cbn [bind] | discriminate].
  destruct (to_number r) as [n | e]; [cbn [bind] | discriminate].
  intros _. split; eexists; reflexivity.
Qed.

Definition first_cell (r : row) : string := hd "" r.

Lemma cells_follow (results : object) (domain : string) (r : row) :
  cells_site results domain = Return r ->
  first_cell r = domain /\
  exists r', cells results domain = Return r' /\ first_cell r' = domain.
Proof.
  unfold cells_site, cells.
  destruct (cell_plain (get_own results domain) "Base") as [c1 | e] eqn:C1;
    [cbn [bind] | discriminate].
  destruct (cell_plain (get_own results domain) "SelfConsistency")
    as [c2 | e] eqn:C2; [cbn [bind] | discriminate].
  destruct (cell_plain (get_own results domain) "JudgeGate")
    as [c3 | e] eqn:C3; [cbn [bind] | discriminate].
  destruct (cell_plain (get_own results domain) "MStack")
    as [c4 | e] eqn:C4; [cbn [bind] | discriminate].
  intros H. inversion H; subst. split; [reflexivity | ].
  destruct (cell_plain_returns _ _ _ C1) as [[b1 ->] _].
  destruct (cell_plain_returns _ _ _ C2) as [_ [b2 ->]].
  destruct (cell_plain_returns _ _ _ C3) as [_ [b3 ->]].
  destruct (cell_plain_returns _ _ _ C4) as [[b4 ->] _].
  eexists. split; reflexivity.
Qed.

Lemma for_in_follow (results : object) (keys : list string) :
  forall tb1 tb2 rows1,
    map first_cell tb1 = map first_cell tb2 ->
    for_in (row_body results cells_site) keys tb1 = (rows1, Return tt) ->
    exists rows2,
      for_in (row_body results cells) keys tb2 = (rows2, Return tt) /\
      map first_cell rows1 = map first_cell rows2.
Proof.
  induction keys as [ | k rest IH]; intros tb1 tb2 rows1 E H; cbn [for_in] in *.
  - inversion H; subst. exists tb2. split; [reflexivity | exact E].
  - unfold row_body in H at 1. unfold row_body at 1.
    destruct (has_base_and_mstack results k) as [[ | ] | e].
    + destruct (cells_site results k) as [r1 | e] eqn:C; [ | discriminate H].
      destruct (cells_follow _ _ _ C) as (F1 & r2 & -> & F2).
      apply (IH _ (tb2 ++ [r2])%list) in H; [exact H | ].
      rewrite !map_app, E. cbn [map]. rewrite F1, F2. reflexivity.
    + apply (IH _ tb2) in H; [exact H | exact E].
    + discriminate H.
Qed.

(** part_000 renders every results object the site version renders: when
    the site version returns normally, so does part_000, with as many
    rows, for the same domains in the same order. *)
Theorem part000_returns_where_site_does (results : object)
    (tbody rows : list row) :
  renderHallucinationTable_site results tbody = (rows, Return tt) ->
  exists rows' : list row,
    renderHallucinationTable results tbody = (rows', Return tt) /\
    map first_cell rows' = map first_cell rows /\
    List.length rows' = List.length rows.
Proof.
  intros H. unfold renderHallucinationTable_site in H.
  destruct (for_in_follow results (own_keys results) tbody tbody rows eq_refl H)
    as (rows' & R & E).
  exists rows'. split; [exact R | ]. split; [symmetry; exact E | ].
  rewrite <- (length_map first_cell rows'), <- (length_map first_cell rows), E.
  reflexivity.
Qed.

(** *** [renderCalibrationTable] and [renderRccChart], the same in both
    versions *)

(** [q.toFixed(3)] for a finite [q], as [fixed1] with three places. *)
Definition fixed3 (q : Q) : string :=
  let s := if (Qnum q <? 0)%Z then "-" else "" in
  let a := Z.abs (Qnum q) in
  let b := Zpos (Qden q) in
  if (10 ^ 21 * b <=? a)%Z then s ++ large_to_string (Qabs q)
  else
    let n := ((2000 * a + b) / (2 * b))%Z in
    s ++ dec (n / 1000) ++ "." ++ dec (n / 100 mod 10)
      ++ dec (n / 10 mod 10) ++ dec (n mod 10).

Definition to_fixed3 (n : num) : string :=
  match n with
  | NaN => "NaN"
  | Inf false => "Infinity"
  | Inf true => "-Infinity"
  | Fin q => fixed3 q
  end.

(** [v.toFixed(3)]: only a number has the method; on [undefined] and
    [null] the property cannot be read, and on every other value what is
    found under that name (nothing, or a JSON value) cannot be called. *)
Definition call_to_fixed3 (v : jsval) : result string :=
  match v with
  | JNum n => Return (to_fixed3 n)
  | _ => Raise TypeError
  end.

(** [overall.Base.ece.toFixed(3)] and the like; [ece] and [aurc], like
    the names above, are properties of objects only. *)
Definition metric (overall : jsval) (system name : string) : result string :=
  o <- get overall system ;;
  m <- get o name ;;
  call_to_fixed3 m.

Definition metric_row (overall : jsval) (title name : string) : result row :=
  b <- metric overall "Base" name ;;
  m <- metric overall "MStack" name ;;
  Return [title; b; strong m].

Definition ece_title : string := "ECE (↓ better)".
Definition aurc_title : string := "AURC (↓ better)".

Definition renderCalibrationTable (results : jsval) (tbody : list row)
    : list row * result unit :=
  match get results "Overall" with
  | Raise e => (tbody, Raise e)
  | Return overall =>
      if truthy overall then
        match metric_row overall ece_title "ece" with
        | Raise e => ((tbody ++ [[]])%list, Raise e)
        | Return eceRow =>
            match metric_row overall aurc_title "aurc" with
            | Raise e => ((tbody ++ [eceRow; []])%list, Raise e)
            | Return aurcRow => ((tbody ++ [eceRow; aurcRow])%list, Return tt)
            end
        end
      else (tbody, Return tt)
  end.

(** The indices and characters of a string, which [Object.keys] and
    [for ... in] enumerate by UTF-16 code unit; left open. *)
Variable string_entries : string -> object.

Definition index_entries (items : list jsval) : object :=
  combine (map (fun i => dec (Z.of_nat i)) (seq 0 (List.length items))) items.

(** The own enumerable properties of a value, in enumeration order:
    [Object.keys(v)] is [own_keys (properties v)] and [v[k]], for such a
    key, [get_own (properties v) k]. *)
Definition properties (v : jsval) : object :=
  match v with
  | JObj props => props
  | JArr items => index_entries items
  | JStr s => string_entries s
  | JUndefined | JNull | JBool _ | JNum _ => []
  end.

(** [hay.includes(needle)] *)
Fixpoint includes (needle hay : string) : bool :=
  prefix needle hay
  || match hay with
     | EmptyString => false
     | String _ rest => includes needle rest
     end.

Record trace : Type := {
  x : jsval;
  y : jsval;
  mode : string;
  name : string;
  width : nat;
  dash : string
}.

Record layout : Type := {
  title : string;
  xaxis_title : string;
  yaxis_title : string;
  legend : Q * Q
}.

Definition rcc_layout : layout :=
  {| title := "Risk-Controlling Coverage (RCC)";
     xaxis_title := "Coverage";
     yaxis_title := "Empirical Risk (Error Rate)";
     legend := (0.1, 0.9)%Q |}.

(** A call [Plotly.newPlot(target, traces, layout)]. *)
Record plot : Type := {
  target : string;
  traces : list trace;
  plot_layout : layout
}.

(** The arrow function given to [map]. *)
Definition trace_of (rccData : jsval) (key : string) : result trace :=
  let curve := get_own (properties rccData) key in
  cx <- get curve "coverage" ;;
  cy <- get curve "risk" ;;
  Return {| x := cx; y := cy; mode := "lines"; name := key;
            width := if (key =? "M-Stack")%string then 4 else 2;
            dash := if includes "Base" key then "dot" else "solid" |}.

(** [keys.map(f)] for an [f] that may throw. *)
Fixpoint map_result {A B : Type} (f : A -> result B) (l : list A)
    : result (list B) :=
  match l with
  | [] => Return []
  | a :: rest =>
      b <- f a ;;
      bs <- map_result f rest ;;
      Return (b :: bs)
  end.

(** [renderRccChart]: [None] when it returns before drawing. *)
Definition renderRccChart (results : jsval) : result (option plot) :=
  rccData <- get results "RCC_Curves" ;;
  if negb (truthy rccData) then Return None
  else
    ts <- map_result (trace_of rccData) (own_keys (properties rccData)) ;;
    Return (Some {| target := "rcc-chart"; traces := ts;
                    plot_layout := rcc_layout |}).

Definition is_number (v : jsval) : bool :=
  match v with
  | JNum _ => true
  | _ => false
  end.

(** The value of [overall.system.name] where it can be read. *)
Definition metric_value (overall : jsval) (system name : string) : jsval :=
  field (field overall system) name.

Definition metric_text (overall : jsval) (system name : string) : string :=
  match metric_value overall system name with
  | JNum n => to_fixed3 n
  | _ => ""
  end.

Definition metrics_numeric (overall : jsval) : bool :=
  is_number (metric_value overall "Base" "ece")
  && is_number (metric_value overall "MStack" "ece")
  && is_number (metric_value overall "Base" "aurc")
  && is_number (metric_value overall "MStack" "aurc").

Lemma metric_spec (overall : jsval) (system name : string) :
  nullish overall = false ->
  metric overall system name
  = if is_number (metric_value overall system name)
    then Return (metric_text overall system name)
    else Raise TypeError.
Proof.
  intros N. unfold metric, metric_text, metric_value.
  rewrite get_field by exact N. cbn [bind].
  destruct (nullish (field overall system)) eqn:M.
  - destruct (field overall system); try discriminate M; reflexivity.
  - rewrite get_field by exact M. cbn [bind].
    destruct (field (field overall system) name); reflexivity.
Qed.

Definition calibration_rows (overall : jsval) : list row :=
  [[ece_title; metric_text overall "Base" "ece";
    strong (metric_text overall "MStack" "ece")];
   [aurc_title; metric_text overall "Base" "aurc";
    strong (metric_text overall "MStack" "aurc")]].

Lemma calibration_untouched (results : jsval) (tbody : list row) :
  nullish results = false ->
  truthy (field results "Overall") = false ->
  renderCalibrationTable results tbody = (tbody, Return tt).
Proof.
  intros N T. unfold renderCalibrationTable.
  rewrite get_field by exact N. rewrite T. reflexivity.
Qed.

Lemma calibration_appended (results : jsval) (tbody : list row) :
  nullish results = false ->
  truthy (field results "Overall") = true ->
  metrics_numeric (field results "Overall") = true ->
  renderCalibrationTable results tbody
  = ((tbody ++ calibration_rows (field results "Overall"))%list, Return tt).
Proof.
  intros N T M. unfold renderCalibrationTable.
  rewrite get_field by exact N. rewrite T.
  pose proof (truthy_not_nullish _ T) as NO.
  unfold metrics_numeric in M.
  apply andb_true_iff in M as [M M4]. apply andb_true_iff in M as [M M3].
  apply andb_true_iff in M as [M1 M2].
  unfold metric_row. rewrite !metric_spec by exact NO.
  rewrite M1, M2, M3, M4. reflexivity.
Qed.

(** What [renderCalibrationTable] does with each results value. Without a
    truthy [Overall] the table is left alone. With one, the run succeeds
    exactly when the four metrics are numbers, and then has appended the
    ECE row and the AURC row; otherwise it throws a TypeError with an
    empty row appended last, after at most one finished row. On [null]
    it throws at once. *)
Theorem renderCalibrationTable_outcome (results : jsval) (tbody : list row) :
  let overall := field results "Overall" in
  let out := renderCalibrationTable results tbody in
  (nullish results = true -> out = (tbody, Raise TypeError)) /\
  (nullish results = false -> truthy overall = false ->
   out = (tbody, Return tt)) /\
  (nullish results = false -> truthy overall = true ->
   metrics_numeric overall = true ->
   out = ((tbody ++
           [[ece_title; metric_text overall "Base" "ece";
             strong (metric_text overall "MStack" "ece")];
            [aurc_title; metric_text overall "Base" "aurc";
             strong (metric_text overall "MStack" "aurc")]])%list,
          Return tt)) /\
  (nullish results = false -> truthy overall = true ->
   metrics_numeric overall = false ->
   snd out = Raise TypeError /\
   exists rows : list row,
     fst out = (tbody ++ rows ++ [[]])%list /\ (List.length rows <= 1)%nat).
Proof.
  cbv zeta. unfold renderCalibrationTable. split; [ | split; [ | split]].
  - intros N. destruct results; try discriminate N; reflexivity.
  - intros N T. fold (renderCalibrationTable results tbody).
    apply calibration_untouched; assumption.
  - intros N T M. fold (renderCalibrationTable results tbody).
    apply calibration_appended; assumption.
  - intros N T M. rewrite get_field by exact N. rewrite T.
    pose proof (truthy_not_nullish _ T) as NO.
    unfold metrics_numeric in M.
    unfold metric_row. rewrite !metric_spec by exact NO.
    destruct (is_number (metric_value (field results "Overall") "Base" "ece"));
      [ | cbn; split; [reflexivity | exists []; split; [reflexivity | auto with arith]]].
    destruct (is_number (metric_value (field results "Overall") "MStack" "ece"));
      [ | cbn; split; [reflexivity | exists []; split; [reflexivity | auto with arith]]].
    destruct (is_number (metric_value (field results "Overall") "Base" "aurc"));
      [ | cbn [bind fst snd]; split; [reflexivity | ];
          eexists [_]; split; [reflexivity | auto with arith]].
    destruct (is_number (metric_value (field results "Overall") "MStack" "aurc"));
      [discriminate M | ].
    cbn [bind fst snd]. split; [reflexivity | ].
    eexists [_]. split; [reflexivity | auto with arith].
Qed.

Lemma map_result_all {A B : Type} (f : A -> result B) (g : A -> B)
    (l : list A) :
  (forall a, In a l -> f a = Return (g a)) ->
  map_result f l = Return (map g l).
Proof.
  induction l as [ | a rest IH]; intros H; cbn [map_result map]; [reflexivity | ].
  rewrite (H a (or_introl eq_refl)). cbn [bind].
  rewrite IH by (intros b Hb; apply H; right; exact Hb). reflexivity.
Qed.

Lemma map_result_raises {A B : Type} (f : A -> result B) (l : list A) :
  (forall a, In a l -> f a = Raise TypeError \/ exists b, f a = Return b) ->
  (exists a, In a l /\ f a = Raise TypeError) ->
  map_result f l = Raise TypeError.
Proof.
  induction l as [ | a rest IH]; intros H (a0 & Hin & Ha0); [contradiction | ].
  cbn [map_result].
  destruct (H a (or_introl eq_refl)) as [-> | [b Hb]]; [reflexivity | ].
  rewrite Hb. cbn [bind].
  destruct Hin as [-> | Hin]; [congruence | ].
  rewrite IH; [reflexivity | | exists a0; split; assumption].
  intros c Hc. apply H. right. exact Hc.
Qed.

(** The trace of a curve that can be read. *)
Definition drawn (rccData : jsval) (key : string) : trace :=
  let curve := get_own (properties rccData) key in
  {| x := field curve "coverage"; y := field curve "risk"; mode := "lines";
     name := key;
     width := if (key =? "M-Stack")%string then 4 else 2;
     dash := if includes "Base" key then "dot" else "solid" |}.

Lemma trace_of_spec (rccData : jsval) (key : string) :
  trace_of rccData key
  = if nullish (get_own (properties rccData) key)
    then Raise TypeError
    else Return (drawn rccData key).
Proof.
  unfold trace_of, drawn.
  destruct (nullish (get_own (properties rccData) key)) eqn:N.
  - destruct (get_own (properties rccData) key); try discriminate N; reflexivity.
  - rewrite !get_field by exact N. reflexivity.
Qed.

Definition rcc_plot (rccData : jsval) : plot :=
  {| target := "rcc-chart";
     traces := map (drawn rccData) (own_keys (properties rccData));
     plot_layout := rcc_layout |}.

Lemma rcc_not_drawn (results : jsval) :
  nullish results = false ->
  truthy (field results "RCC_Curves") = false ->
  renderRccChart results = Return None.
Proof.
  intros N T. unfold renderRccChart.
  rewrite get_field by exact N. cbn [bind]. rewrite T. reflexivity.
Qed.

Lemma rcc_drawn (results : jsval) :
  nullish results = false ->
  truthy (field results "RCC_Curves") = true ->
  (forall k, In k (own_keys (properties (field results "RCC_Curves"))) ->
     nullish (get_own (properties (field results "RCC_Curves")) k) = false) ->
  renderRccChart results = Return (Some (rcc_plot (field results "RCC_Curves"))).
Proof.
  intros N T H. unfold renderRccChart.
  rewrite get_field by exact N. cbn [bind]. rewrite T. cbn [negb].
  rewrite (map_result_all _ (drawn (field results "RCC_Curves")));
    [reflexivity | ].
  intros a Ha. rewrite trace_of_spec, (H a Ha). reflexivity.
Qed.

(** What [renderRccChart] does with each results value. Without a truthy
    [RCC_Curves] nothing is drawn. With one, a curve that is [null] makes
    the run throw before anything is drawn; otherwise one plot is drawn on
    "rcc-chart" with one trace per key, named by the keys in enumeration
    order, so no two traces share a name, and only a trace named
    "M-Stack" is 4 wide: at most one. *)
Theorem renderRccChart_outcome (results : jsval) :
  let rccData := field results "RCC_Curves" in
  let keys := own_keys (properties rccData) in
  (nullish results = true -> renderRccChart results = Raise TypeError) /\
  (nullish results = false -> truthy rccData = false ->
   renderRccChart results = Return None) /\
  (nullish results = false -> truthy rccData = true ->
   (exists k, In k keys /\ nullish (get_own (properties rccData) k) = true) ->
   renderRccChart results = Raise TypeError) /\
  (nullish results = false -> truthy rccData = true ->
   (forall k, In k keys -> nullish (get_own (properties rccData) k) = false) ->
   exists p : plot,
     renderRccChart results = Return (Some p) /\
     target p = "rcc-chart" /\
     traces p = map (drawn rccData) keys /\
     map name (traces p) = keys /\
     NoDup (map name (traces p)) /\
     (forall t, In t (traces p) ->
        (width t = 4%nat <-> name t = "M-Stack") /\
        (width t = 2%nat <-> name t <> "M-Stack")) /\
     (forall t1 t2, In t1 (traces p) -> In t2 (traces p) ->
        width t1 = 4%nat -> width t2 = 4%nat -> name t1 = name t2)).
Proof.
  cbv zeta. unfold renderRccChart. split; [ | split; [ | split]].
  - intros N. destruct results; try discriminate N; reflexivity.
  - intros N T. fold (renderRccChart results). apply rcc_not_drawn; assumption.
  - intros N T (k & Hin & Hk). rewrite get_field by exact N. cbn [bind].
    rewrite T. cbn [negb].
    rewrite map_result_raises; [reflexivity | | ].
    + intros a _. rewrite trace_of_spec.
      destruct (nullish (get_own (properties (field results "RCC_Curves")) a));
        [left; reflexivity | right; eexists; reflexivity].
    + exists k. split; [exact Hin | ]. rewrite trace_of_spec, Hk. reflexivity.
  - intros N T H. fold (renderRccChart results).
    rewrite (rcc_drawn _ N T H).
    eexists. split; [reflexivity | ]. cbn [rcc_plot target traces].
    assert (map name (map (drawn (field results "RCC_Curves"))
                       (own_keys (properties (field results "RCC_Curves"))))
            = own_keys (properties (field results "RCC_Curves"))) as Names.
    { rewrite map_map. cbn [drawn name]. apply map_id. }
    assert (forall t,
              In t (map (drawn (field results "RCC_Curves"))
                      (own_keys (properties (field results "RCC_Curves")))) ->
              (width t = 4%nat <-> name t = "M-Stack") /\
              (width t = 2%nat <-> name t <> "M-Stack")) as W.
    { intros t Ht. apply in_map_iff in Ht as (k & <- & _). cbn [drawn width name].
      destruct (String.eqb_spec k "M-Stack") as [E | E].
      - split; split; intros G;
          try reflexivity; try assumption; try discriminate G; contradiction.
      - split; split; intros G;
          try reflexivity; try assumption; try discriminate G; contradiction. }
    split; [reflexivity | ]. split; [reflexivity | ].
    split; [exact Names | ].
    split; [rewrite Names; apply own_keys_nodup | ].
    split; [exact W | ].
    intros t1 t2 H1 H2 W1 W2.
    apply W in H1, H2. destruct H1 as [[H1 _] _], H2 as [[H2 _] _].
    rewrite (H1 W1), (H2 W2). reflexivity.
Qed.

Lemma prefix_app (needle hay : string) :
  prefix needle hay = true <-> exists post, hay = needle ++ post.
Proof.
  revert hay. induction needle as [ | a needle IH]; intros hay.
  - split; [intros _; exists hay; reflexivity | ].
    intros _. destruct hay; reflexivity.
  - destruct hay as [ | b hay]; cbn [prefix].
    { split; [discriminate | intros [post H]; discriminate H]. }
    destruct (ascii_dec a b) as [-> | Hne].
    + rewrite IH. split; intros [post H]; exists post.
      * cbn. rewrite H. reflexivity.
      * cbn in H. inversion H. reflexivity.
    + split; [discriminate | ]. intros [post H]. cbn in H. congruence.
Qed.

Lemma includes_app (needle hay : string) :
  includes needle hay = true <->
  exists pre post, hay = pre ++ needle ++ post.
Proof.
  induction hay as [ | c hay IH]; cbn [includes].
  - rewrite orb_false_r, prefix_app. split.
    + intros [post H]. exists "", post. exact H.
    + intros (pre & post & H). destruct pre as [ | p pre]; [ | discriminate H].
      exists post. exact H.
  - rewrite orb_true_iff, prefix_app, IH. split.
    + intros [[post H] | (pre & post & H)].
      * exists "", post. exact H.
      * exists (String c pre), post. cbn. rewrite H. reflexivity.
    + intros (pre & post & H). destruct pre as [ | p pre].
      * left. exists post. exact H.
      * right. exists pre, post. cbn in H. inversion H. reflexivity.
Qed.

(** How a curve is drawn: dotted exactly when its key contains "Base"
    somewhere, solid otherwise, always as lines, with the two series of
    the curve as they are in the results object. *)
Theorem trace_of_style (rccData : jsval) (key : string) (t : trace) :
  trace_of rccData key = Return t ->
  (dash t = "dot" <-> exists pre post, key = pre ++ "Base" ++ post) /\
  (dash t = "solid" <-> ~ exists pre post, key = pre ++ "Base" ++ post) /\
  mode t = "lines" /\
  x t = field (get_own (properties rccData) key) "coverage" /\
  y t = field (get_own (properties rccData) key) "risk".
Proof.
  rewrite trace_of_spec.
  destruct (nullish (get_own (properties rccData) key)); [discriminate | ].
  intros H. inversion H; subst t. cbn [drawn dash mode x y].
  rewrite <- includes_app.
  destruct (includes "Base" key).
  - split; [split; intros _; reflexivity | ].
    split; [ | repeat split].
    split; [discriminate | intros G; exfalso; apply G; reflexivity].
  - split; [split; discriminate | ].
    split; [ | repeat split].
    split; [intros _; discriminate | intros _; reflexivity].
Qed.

(** *** The handlers of [DOMContentLoaded] *)

Fixpoint has_slash (s : string) : bool :=
  match s with
  | EmptyString => false
  | String c rest => Ascii.eqb c "/" || has_slash rest
  end.

(** [pathname.replace(re, '/')] for the pattern of part_000, a slash and
    then characters other than a slash up to the end: the text from the
    last slash on becomes one slash; without a slash nothing matches. *)
Fixpoint page_directory (s : string) : string :=
  match s with
  | EmptyString => EmptyString
  | String c rest =>
      if has_slash rest then String c (page_directory rest)
      else if Ascii.eqb c "/" then "/"
      else s
  end.

(** [base + 'results/results.json?cb=' + Date.now()] *)
Definition results_url (pathname : string) (now : N) : string :=
  page_directory pathname ++ "results/results.json?cb=" ++ dec (Z.of_N now).

(** What [fetch] and [res.json()] give: a rejected request, or a
    response, [ok] or not, whose body is JSON or not. *)
Inductive fetched : Type :=
| Rejected
| Status (ok : bool) (body : option jsval).

Inductive failure : Type :=
| NetworkError
| NotFound
| BadJson
| Thrown (e : exn).

(** The page after the handler: the two tables and the chart, or the
    body replaced by the error text of the [catch] branch. *)
Inductive view : Type :=
| Page (hallucination calibration : list row) (chart : option plot)
| ErrorPage (cause : failure).

(** The three calls in the [try] block; [for ... in] over a value visits
    its [properties]. *)
Definition render_all (table : object -> list row -> list row * result unit)
    (results : jsval) (h c : list row) : view :=
  match table (properties results) h with
  | (_, Raise e) => ErrorPage (Thrown e)
  | (h', Return _) =>
      match renderCalibrationTable results c with
      | (_, Raise e) => ErrorPage (Thrown e)
      | (c', Return _) =>
          match renderRccChart results with
          | Raise e => ErrorPage (Thrown e)
          | Return chart => Page h' c' chart
          end
      end
  end.

Definition load (table : object -> list row -> list row * result unit)
    (response : fetched) (h c : list row) : view :=
  match response with
  | Rejected => ErrorPage NetworkError
  | Status false _ => ErrorPage NotFound
  | Status true None => ErrorPage BadJson
  | Status true (Some results) => render_all table results h c
  end.

(** src/mstack-site/evidence.js *)
Definition on_load_site (fetch : string -> fetched) (h c : list row) : view :=
  load renderHallucinationTable_site (fetch "results/results.json") h c.

(** src/unnamed/part_000 *)
Definition on_load (pathname : string) (now : N) (fetch : string -> fetched)
    (h c : list row) : view :=
  load renderHallucinationTable (fetch (results_url pathname now)) h c.

Lemma has_slash_app (stem rest : string) :
  has_slash (stem ++ String "/" rest) = true.
Proof.
  induction stem as [ | d stem IH]; cbn.
  - reflexivity.
  - rewrite IH. apply orb_true_r.
Qed.

Lemma page_directory_file (stem file : string) :
  has_slash file = false ->
  page_directory (stem ++ "/" ++ file) = stem ++ "/".
Proof.
  intros F. change ("/" ++ file) with (String "/" file).
  induction stem as [ | c stem IH].
  - cbn. rewrite F. reflexivity.
  - cbn [append page_directory]. rewrite has_slash_app, IH. reflexivity.
Qed.

Lemma string_app_assoc (a b c : string) : (a ++ b) ++ c = a ++ (b ++ c).
Proof.
  induction a as [ | ch a IH]; cbn; [reflexivity | ]. rewrite IH. reflexivity.
Qed.

Lemma page_directory_no_slash (s : string) :
  has_slash s = false -> page_directory s = s.
Proof.
  destruct s as [ | c rest]; [reflexivity | ]. cbn.
  intros H. apply orb_false_iff in H as [C R]. rewrite R, C. reflexivity.
Qed.

(** The address part_000 asks for. Opened at a file of some directory
    (the path is the directory, a slash and a name without slash), the
    page asks for [results/results.json] in that directory, with the time
    as cache breaker; taking the directory twice changes nothing, and a
    path without any slash is kept whole. *)
Theorem results_url_in_page_directory (stem file : string) (now : N) :
  has_slash file = false ->
  results_url (stem ++ "/" ++ file) now
  = stem ++ "/results/results.json?cb=" ++ dec (Z.of_N now) /\
  page_directory (page_directory (stem ++ "/" ++ file))
  = page_directory (stem ++ "/" ++ file) /\
  page_directory file = file.
Proof.
  intros F. unfold results_url. rewrite (page_directory_file _ _ F).
  split; [ | split].
  - rewrite string_app_assoc. reflexivity.
  - change (stem ++ "/") with (stem ++ "/" ++ "").
    apply page_directory_file. reflexivity.
  - apply page_directory_no_slash. exact F.
Qed.

(** The two handlers on one fetched document: whenever the site version
    ends with the page shown, so does part_000, with the same calibration
    rows and chart and with hallucination rows for the same domains. *)
Theorem on_load_follows_site (pathname : string) (now : N)
    (fetch : string -> fetched) (h c hs cs : list row) (chart : option plot) :
  fetch (results_url pathname now) = fetch "results/results.json" ->
  on_load_site fetch h c = Page hs cs chart ->
  exists hs' : list row,
    on_load pathname now fetch h c = Page hs' cs chart /\
    map first_cell hs' = map first_cell hs.
Proof.
  intros F. unfold on_load, on_load_site. rewrite F.
  destruct (fetch "results/results.json") as [ | [ | ] [results | ]];
    cbn [load]; try discriminate.
  unfold render_all.
  destruct (renderHallucinationTable_site (properties results) h)
    as [h1 [ [] | e]] eqn:S; [ | discriminate].
  destruct (for_in_follow (properties results) (own_keys (properties results))
              h h h1 eq_refl S) as (h2 & R & E).
  unfold renderHallucinationTable. rewrite R.
  destruct (renderCalibrationTable results c) as [c1 [ [] | e]]; [ | discriminate].
  destruct (renderRccChart results) as [p | e]; [ | discriminate].
  intros H. inversion H; subst. exists h2. split; [reflexivity | ].
  symmetry. exact E.
Qed.

Lemma render_rows (results : object) (tbody : list row) :
  (forall d, In d (own_keys results) -> nullish (get_own results d) = false) ->
  (forall d system,
     In d (own_keys results) -> eligible results d = true ->
     In system systems -> converts (rate_value (get_own results d) system)) ->
  renderHallucinationTable results tbody
  = ((tbody ++ map (shown_row results)
                   (filter (eligible results) (own_keys results)))%list,
     Return tt).
Proof.
  intros O C. unfold renderHallucinationTable. apply for_in_rows.
  intros k tb Hin. unfold row_body.
  rewrite (has_base_and_mstack_eligible _ _ (O k Hin)).
  destruct (eligible results k) eqn:E; [ | reflexivity].
  rewrite (cells_shown_row _ _ (O k Hin) E); [reflexivity | ].
  intros system Hs. apply (C k system Hin E Hs).
Qed.

(** The page part_000 shows. When the fetched document is an object whose
    domain values are not null and whose rates convert, whose [Overall],
    if truthy, carries the four numeric metrics, and whose curves, if any,
    are not null, the handler ends with the page shown: the rows of the
    domains with [Base] and [MStack], the two calibration rows exactly
    when [Overall] is truthy, and the chart exactly when [RCC_Curves] is
    truthy. *)
Theorem on_load_renders (pathname : string) (now : N)
    (fetch : string -> fetched) (h c : list row) (results : object) :
  let overall := get_own results "Overall" in
  let rccData := get_own results "RCC_Curves" in
  fetch (results_url pathname now) = Status true (Some (JObj results)) ->
  (forall d, In d (own_keys results) -> nullish (get_own results d) = false) ->
  (forall d system,
     In d (own_keys results) -> eligible results d = true ->
     In system systems -> converts (rate_value (get_own results d) system)) ->
  (truthy overall = true -> metrics_numeric overall = true) ->
  (forall k, In k (own_keys (properties rccData)) ->
     nullish (get_own (properties rccData) k) = false) ->
  on_load pathname now fetch h c
  = Page (h ++ map (shown_row results)
                   (filter (eligible results) (own_keys results)))%list
         (if truthy overall then (c ++ calibration_rows overall)%list else c)
         (if truthy rccData then Some (rcc_plot rccData) else None).
Proof.
  intros overall rccData F O C M R. unfold on_load. rewrite F. cbn [load].
  unfold render_all. cbn [properties].
  rewrite (render_rows results h O C).
  assert (nullish (JObj results) = false) as N by reflexivity.
  change (get_own results "Overall") with (field (JObj results) "Overall")
    in overall.
  change (get_own results "RCC_Curves") with (field (JObj results) "RCC_Curves")
    in rccData.
  destruct (truthy overall) eqn:T.
  - rewrite (calibration_appended _ c N T (M eq_refl)).
    destruct (truthy rccData) eqn:U.
    + rewrite (rcc_drawn _ N U R). reflexivity.
    + rewrite (rcc_not_drawn _ N U). reflexivity.
  - rewrite (calibration_untouched _ c N T).
    destruct (truthy rccData) eqn:U.
    + rewrite (rcc_drawn _ N U R). reflexivity.
    + rewrite (rcc_not_drawn _ N U). reflexivity.
Qed.

End Runtime.

(** Sample instances of the open conversions; the examples below reach
    none of them. *)
Definition text_is_nan (_ : string) : num := NaN.
Definition array_is_nan (_ : list jsval) : result num := Return NaN.
Definition no_exponent (_ : Q) : string := "".

Definition rate (q : Q) : jsval := JObj [("hallucination_rate", JNum (Fin q))].

Definition results_full : object :=
  [("SQuAD2", JObj [("Base", rate 0.4); ("SelfConsistency", rate 0.31);
                    ("JudgeGate", rate 0.275); ("MStack", rate 0.1)]);
   ("Overall", JObj [("Base", JObj [("ece", JNum (Fin 0.2))]);
                     ("MStack", JObj [("ece", JNum (Fin 0.1))])]);
   ("RCC_Curves", JObj [])].

Definition results_two_systems : object :=
  [("SQuAD2", JObj [("Base", rate 0.4); ("MStack", rate 0.1)])].

Example render_site_full :
  renderHallucinationTable_site text_is_nan array_is_nan no_exponent results_full []
  = ([["SQuAD2"; "40.0%"; "31.0%"; "27.5%"; "<strong>10.0%</strong>"]; []],
     Raise TypeError).
Proof. vm_compute. reflexivity. Qed.

Example render_full :
  renderHallucinationTable text_is_nan array_is_nan no_exponent results_full []
  = ([["SQuAD2"; "40.0%"; "31.0%"; "27.5%"; "<strong>10.0%</strong>"];
      ["Overall"; "0.0%"; "0.0%"; "0.0%"; "<strong>0.0%</strong>"]],
     Return tt).
Proof. vm_compute. reflexivity. Qed.

(** C8 as stated fails: an entry with [Base] and [MStack] only. The site
    version has inserted an empty row when reading
    [SelfConsistency.hallucination_rate] throws; part_000 shows 0.0%. *)
Lemma renderers_differ_two_systems :
  renderHallucinationTable_site text_is_nan array_is_nan no_exponent
    results_two_systems []
  = ([[]], Raise TypeError) /\
  renderHallucinationTable text_is_nan array_is_nan no_exponent
    results_two_systems []
  = ([["SQuAD2"; "40.0%"; "0.0%"; "0.0%"; "<strong>10.0%</strong>"]],
     Return tt).
Proof. split; vm_compute; reflexivity. Qed.

(** They differ without any exception too: a system that is present but
    carries no rate is shown as NaN% by the site version. *)
Definition results_no_rates : object :=
  [("Overall", JObj [("Base", JObj [("ece", JNum (Fin 0.2))]);
                     ("SelfConsistency", JObj []);
                     ("JudgeGate", JObj []);
                     ("MStack", JObj [("ece", JNum (Fin 0.1))])])].

Example renderers_differ_nan :
  renderHallucinationTable_site text_is_nan array_is_nan no_exponent
    results_no_rates []
  = ([["Overall"; "NaN%"; "NaN%"; "NaN%"; "<strong>NaN%</strong>"]], Return tt) /\
  renderHallucinationTable text_is_nan array_is_nan no_exponent
    results_no_rates []
  = ([["Overall"; "0.0%"; "0.0%"; "0.0%"; "<strong>0.0%</strong>"]], Return tt).
Proof. split; vm_compute; reflexivity. Qed.

Definition results_four_systems : object :=
  [("SQuAD2", JObj [("Base", rate 0.4); ("SelfConsistency", rate 0.31);
                    ("JudgeGate", rate 0.275); ("MStack", rate 0.1)]);
   ("RCC_Curves", JObj [])].

Lemma renderers_agree_witness :
  renderHallucinationTable_site text_is_nan array_is_nan no_exponent
    results_four_systems []
  = renderHallucinationTable text_is_nan array_is_nan no_exponent
      results_four_systems [].
Proof.
  apply (renderers_agree text_is_nan array_is_nan no_exponent
           results_four_systems []).
  intros d [<- | [<- | []]] E; [ | discriminate E].
  split; [reflexivity | split; [reflexivity | ]].
  intros system [<- | [<- | [<- | [<- | []]]]]; vm_compute; discriminate.
Defined.

(** C10 as stated fails: a rate that is an object with a [toString]
    property of its own cannot be converted, [rate * 100] throws, the row
    of "A" stays empty and "B", which has both systems, gets no row. *)
Definition results_unconvertible : object :=
  [("A", JObj [("Base", JObj [("hallucination_rate",
                               JObj [("toString", JNull)])]);
               ("MStack", rate 0.1)]);
   ("B", JObj [("Base", rate 0.4); ("MStack", rate 0.1)])].

Lemma render_stops_at_unconvertible_rate :
  (forall d, In d (own_keys results_unconvertible) ->
     is_object (get_own results_unconvertible d) = true) /\
  In "B" (own_keys results_unconvertible) /\
  eligible results_unconvertible "B" = true /\
  renderHallucinationTable text_is_nan array_is_nan no_exponent
    results_unconvertible []
  = ([[]], Raise TypeError).
Proof.
  split; [intros d [<- | [<- | []]]; reflexivity | ].
  split; [right; left; reflexivity | ].
  split; vm_compute; reflexivity.
Qed.

Lemma render_one_row_per_eligible_witness :
  renderHallucinationTable text_is_nan array_is_nan no_exponent results_full []
  = (map (shown_row text_is_nan array_is_nan no_exponent results_full)
         (filter (eligible results_full) (own_keys results_full)),
     Return tt) /\
  NoDup (own_keys results_full) /\
  (forall d system,
     system = "SelfConsistency" \/ system = "JudgeGate" ->
     rate_value (get_own results_full d) system = JUndefined ->
     nth_error (shown_row text_is_nan array_is_nan no_exponent results_full d)
       (if (system =? "SelfConsistency")%string then 2 else 3)
     = Some "0.0%").
Proof.
  apply (render_one_row_per_eligible text_is_nan array_is_nan no_exponent
           results_full []).
  - intros d [<- | [<- | [<- | []]]]; reflexivity.
  - intros d system [<- | [<- | [<- | []]]] E;
      [ | | discriminate E];
      intros [<- | [<- | [<- | [<- | []]]]]; eexists; vm_compute; reflexivity.
Defined.

(** *** The rest of the page on samples *)

Definition no_string_entries (_ : string) : object := [].

Definition metrics (e a : Q) : jsval :=
  JObj [("ece", JNum (Fin e)); ("aurc", JNum (Fin a))].

Definition curve : jsval :=
  JObj [("coverage", JArr [JNum (Fin 0.5); JNum (Fin 1)]);
        ("risk", JArr [JNum (Fin 0.1); JNum (Fin 0.2)])].

Definition results_page : object :=
  [("SQuAD2", JObj [("Base", rate 0.4); ("SelfConsistency", rate 0.31);
                    ("JudgeGate", rate 0.275); ("MStack", rate 0.1)]);
   ("Overall", JObj [("Base", metrics 0.2 0.31); ("MStack", metrics 0.0456 0.2)]);
   ("RCC_Curves", JObj [("Base", curve); ("M-Stack", curve)])].

Example calibration_page :
  renderCalibrationTable no_exponent (JObj results_page) []
  = ([[ece_title; "0.200"; "<strong>0.046</strong>"];
      [aurc_title; "0.310"; "<strong>0.200</strong>"]],
     Return tt).
Proof. vm_compute. reflexivity. Qed.

(** [results_full] has an [Overall] with [ece] only: the ECE row is
    written, the AURC row stays empty. *)
Example calibration_without_aurc :
  renderCalibrationTable no_exponent (JObj results_full) []
  = ([[ece_title; "0.200"; "<strong>0.100</strong>"]; []], Raise TypeError).
Proof. vm_compute. reflexivity. Qed.

Example chart_page :
  renderRccChart no_string_entries (JObj results_page)
  = Return (Some
      {| target := "rcc-chart";
         traces :=
           [ {| x := JArr [JNum (Fin 0.5); JNum (Fin 1)];
                y := JArr [JNum (Fin 0.1); JNum (Fin 0.2)];
                mode := "lines"; name := "Base"; width := 2; dash := "dot" |};
             {| x := JArr [JNum (Fin 0.5); JNum (Fin 1)];
                y := JArr [JNum (Fin 0.1); JNum (Fin 0.2)];
                mode := "lines"; name := "M-Stack"; width := 4;
                dash := "solid" |} ];
         plot_layout := rcc_layout |}).
Proof. vm_compute. reflexivity. Qed.

Definition serve (results : object) (_ : string) : fetched :=
  Status true (Some (JObj results)).

(** On the usual shape of the file, with an [Overall] entry that has no
    [SelfConsistency], the site version ends on its error page, while
    part_000 shows the page. *)
Example on_load_site_overall :
  on_load_site text_is_nan array_is_nan no_exponent no_string_entries
    (serve results_page) [] []
  = ErrorPage (Thrown TypeError).
Proof. vm_compute. reflexivity. Qed.

Lemma site_fails_without_system_witness :
  exists e : exn,
    snd (renderHallucinationTable_site text_is_nan array_is_nan no_exponent
           results_two_systems [])
    = Raise e.
Proof.
  apply (site_fails_without_system text_is_nan array_is_nan no_exponent
           results_two_systems [] "SQuAD2").
  - left. reflexivity.
  - reflexivity.
  - left. reflexivity.
Defined.

Lemma part000_returns_where_site_does_witness :
  exists rows' : list row,
    renderHallucinationTable text_is_nan array_is_nan no_exponent
      results_four_systems []
    = (rows', Return tt) /\
    map first_cell rows' = map first_cell
      [["SQuAD2"; "40.0%"; "31.0%"; "27.5%"; "<strong>10.0%</strong>"]] /\
    List.length rows' = 1%nat.
Proof.
  apply (part000_returns_where_site_does text_is_nan array_is_nan no_exponent
           results_four_systems []
           [["SQuAD2"; "40.0%"; "31.0%"; "27.5%"; "<strong>10.0%</strong>"]]).
  vm_compute. reflexivity.
Defined.

Lemma trace_of_style_witness :
  let t := drawn no_string_entries (JObj [("Base-v2", curve)]) "Base-v2" in
  (dash t = "dot" <-> exists pre post, "Base-v2" = pre ++ "Base" ++ post) /\
  (dash t = "solid" <-> ~ exists pre post, "Base-v2" = pre ++ "Base" ++ post) /\
  mode t = "lines" /\
  x t = field (get_own (properties no_string_entries
                          (JObj [("Base-v2", curve)])) "Base-v2") "coverage" /\
  y t = field (get_own (properties no_string_entries
                          (JObj [("Base-v2", curve)])) "Base-v2") "risk".
Proof.
  apply (trace_of_style no_string_entries (JObj [("Base-v2", curve)]) "Base-v2").
  reflexivity.
Defined.

Lemma results_url_in_page_directory_witness :
  results_url "/mstack/evidence.html" 1700000000000
  = "/mstack/results/results.json?cb=1700000000000" /\
  page_directory (page_directory "/mstack/evidence.html")
  = page_directory "/mstack/evidence.html" /\
  page_directory "evidence.html" = "evidence.html".
Proof.
  apply (results_url_in_page_directory "/mstack" "evidence.html" 1700000000000).
  reflexivity.
Defined.

Lemma on_load_follows_site_witness :
  exists hs' : list row,
    on_load text_is_nan array_is_nan no_exponent no_string_entries
      "/mstack/evidence.html" 1700000000000 (serve results_four_systems) [] []
    = Page hs' []
        (Some {| target := "rcc-chart"; traces := [];
                 plot_layout := rcc_layout |}) /\
    map first_cell hs' = map first_cell
      [["SQuAD2"; "40.0%"; "31.0%"; "27.5%"; "<strong>10.0%</strong>"]].
Proof.
  apply (on_load_follows_site text_is_nan array_is_nan no_exponent
           no_string_entries "/mstack/evidence.html" 1700000000000
           (serve results_four_systems) [] []
           [["SQuAD2"; "40.0%"; "31.0%"; "27.5%"; "<strong>10.0%</strong>"]]
           []
           (Some {| target := "rcc-chart"; traces := [];
                    plot_layout := rcc_layout |})).
  - reflexivity.
  - vm_compute. reflexivity.
Defined.

Lemma on_load_renders_witness :
  on_load text_is_nan array_is_nan no_exponent no_string_entries
    "/mstack/evidence.html" 1700000000000 (serve results_page) [] []
  = Page
      [["SQuAD2"; "40.0%"; "31.0%"; "27.5%"; "<strong>10.0%</strong>"];
       ["Overall"; "0.0%"; "0.0%"; "0.0%"; "<strong>0.0%</strong>"]]
      [[ece_title; "0.200"; "<strong>0.046</strong>"];
       [aurc_title; "0.310"; "<strong>0.200</strong>"]]
      (Some (rcc_plot no_string_entries (get_own results_page "RCC_Curves"))).
Proof.
  apply (on_load_renders text_is_nan array_is_nan no_exponent no_string_entries
           "/mstack/evidence.html" 1700000000000 (serve results_page) [] []
           results_page).
  - reflexivity.
  - intros d [<- | [<- | [<- | []]]]; reflexivity.
  - intros d system [<- | [<- | [<- | []]]] E;
      [ | | discriminate E];
      intros [<- | [<- | [<- | [<- | []]]]]; eexists; vm_compute; reflexivity.
  - reflexivity.
  - intros k [<- | [<- | []]]; reflexivity.
Defined.

End Evidence.

(** ** The reference pipeline (6) *)

Module Orchestrator.

Local Open Scope result_scope.

Section Source.

(** The values passed around, whose types the document leaves open, and
    the functions [pipeline] calls and the repository does not define.
    [generate] samples, so it takes the index of the sample;
    [decide_cmdp], [execute] and [learn.update] work with the learner's
    state, which is passed in and out instead of shared. *)
Variables Query Context Domain Candidate : Type.
Variables Signals Scores Action Response Budget State : Type.
Variable is_long : Query -> float.
Variable retrieval_thin : option Context -> float.
Variable domain_risk : Domain -> float.
Variable domain : Context -> Domain.
Variable generate : Query -> option Context -> nat -> Candidate.
Variable monitor : list Candidate -> option Context -> Signals.
Variable evaluate : list Candidate -> option Context -> Scores.
Variable decide_cmdp : State -> Signals -> Scores -> Budget -> Q -> Action.
Variable execute :
  State -> Action -> list Candidate -> Query -> option Context -> Response.
Variable learn_update :
  Signals -> Scores -> Action -> Response -> State -> State.

(** [pipeline(query, ctx=None, budget=..., risk_cap=0.2)], line by line;
    a call that leaves [ctx] out passes [None]. *)
Definition pipeline (query : Query) (ctx : option Context) (budget : Budget)
    (risk_cap : Q) (st : State) : result (Response * State) :=
  K <- DynamicK.dynamic_k Query Context Domain is_long retrieval_thin
         domain_risk domain query ctx ;;
  let cands := map (generate query ctx) (seq 0 K) in
  let m1 := monitor cands ctx in
  let m2 := evaluate cands ctx in
  let action := decide_cmdp st m1 m2 budget risk_cap in
  let y := execute st action cands query ctx in
  let st' := learn_update m1 m2 action y st in
  Return (y, st').

(** C1 fails on the code. A call without a context, the default, returns
    no action at all: [dynamic_k] raises at [ctx.domain] before the
    controller is reached, whatever the functions [pipeline] would call.
    With a context object [pipeline] decides once and returns what
    [execute] returns for that action: it has no loop and no look at the
    action of its own. *)
Theorem pipeline_without_context_raises (query : Query) (budget : Budget)
    (risk_cap : Q) (st : State) :
  pipeline query None budget risk_cap st = Raise AttributeError /\
  (forall (y : Response) (st' : State),
     pipeline query None budget risk_cap st <> Return (y, st')) /\
  (forall c : Context,
     exists K : nat,
       DynamicK.dynamic_k Query Context Domain is_long retrieval_thin
         domain_risk domain query (Some c) = Return K /\
       let cands := map (generate query (Some c)) (seq 0 K) in
       let m1 := monitor cands (Some c) in
       let m2 := evaluate cands (Some c) in
       let action := decide_cmdp st m1 m2 budget risk_cap in
       let y := execute st action cands query (Some c) in
       pipeline query (Some c) budget risk_cap st
       = Return (y, learn_update m1 m2 action y st)).
Proof.
  split; [reflexivity | ]. split; [intros y st'; discriminate | ].
  intros c. unfold pipeline, DynamicK.dynamic_k.
  rewrite DynamicK.risk_estimate_some. cbn [bind].
  eexists. split; reflexivity.
Qed.

End Source.

End Orchestrator.

(** ** The decision controller (4.6) and the action executor (5) *)

Module Controller.

Import Calibrator.
Local Open Scope Q_scope.
Local Open Scope result_scope.

Inductive Action : Type :=
| verify
| revise
| abstain
| emit.

(** What [monitor] returns (the design document lists variance, entropy,
    nli_contra and rag_coverage), each in [0,1]. *)
Record Signals : Type := {
  k_sample_variance : Q;
  entropy_prefix_slope : Q;
  contradiction_mass : Q;
  rag_coverage : Q
}.

(** What [evaluate] returns. *)
Record Scores : Type := {
  judge : Q;
  prm : Q;
  citation_score : Q
}.

(** [budget = {'tokens': 2000, 'latency_ms': 2000}] *)
Record Budget : Type := {
  tokens : Q;
  latency_ms : Q
}.

Definition Qltb (x y : Q) : bool :=
  if Qlt_le_dec x y then true else false.

Definition is_reentry (a : Action) : bool :=
  match a with
  | verify | revise => true
  | abstain | emit => false
  end.

Section Control.

(** The constants and proxies of the controller that neither the
    document nor the specification fixes. [cost] counts in units of the
    remaining-budget counter. *)
Variable high_water : Q.
Variable base_utility : Action -> Q.
Variable cost : Action -> nat.
Variable risk : Signals -> Scores -> Action -> Q.

(** Modelled from the spec: the utility of an action (4.6), which the
    document only sketches as a Lagrangian; no code of the repository
    computes it. *)
Definition utility (dual : DualState) (m1 : Signals) (m2 : Scores)
    (budget : Budget) (risk_cap : Q) (a : Action) : Q :=
  base_utility a
  - lambda dual * py_max 0 (inject_Z (Z.of_nat (cost a)) - tokens budget)
  - mu dual * py_max 0 (risk m1 m2 a - risk_cap).

(** The fixed preference order: emit > revise > verify > abstain. *)
Definition preference : list Action := [emit; revise; verify; abstain].

Definition feasible (remaining : nat) (a : Action) : bool :=
  (cost a <=? remaining)%nat.

(** Modelled from the spec: [decide_cmdp], the decision rule of 4.6. The
    document calls it from [pipeline] and does not define it. [remaining]
    is the remaining-budget counter of the re-entry loop (section 5): a
    verify or revise budget remains while it is positive.
    [context_supplied] says whether the request came with a context. The
    multipliers and the threshold are read from a snapshot of the dual
    state. *)
Definition decide_cmdp (dual : DualState) (remaining : nat)
    (context_supplied : bool) (m1 : Signals) (m2 : Scores)
    (budget : Budget) (risk_cap : Q) : Action :=
  if context_supplied && Qltb (rag_coverage m1) (tau dual) then
    (* rule 1 *)
    if (0 <? remaining)%nat then verify else abstain
  else if Qltb high_water (contradiction_mass m1) then
    (* rule 2 *)
    if (0 <? remaining)%nat then revise else abstain
  else
    match filter (feasible remaining) preference with
    | a :: rest => argmax (utility dual m1 m2 budget risk_cap) a rest  (* rule 3 *)
    | [] => abstain                                                    (* rule 4 *)
    end.

(** When neither rule 1 nor rule 2 applies, rule 3 decides by utility
    alone: an affordable emit that no action beats is decided, whatever
    the signals say. The inputs bear on the decision only through the
    two rules and the risk term of the utility, which the multiplier
    [mu], zero at start-up, scales. *)
Lemma decide_by_utility (dual : DualState) (remaining : nat)
    (context_supplied : bool) (m1 : Signals) (m2 : Scores)
    (budget : Budget) (risk_cap : Q) :
  context_supplied && Qltb (rag_coverage m1) (tau dual) = false ->
  Qltb high_water (contradiction_mass m1) = false ->
  (cost emit <= remaining)%nat ->
  (forall a, utility dual m1 m2 budget risk_cap a
             <= utility dual m1 m2 budget risk_cap emit) ->
  decide_cmdp dual remaining context_supplied m1 m2 budget risk_cap = emit.
Proof.
  intros R1 R2 C U. unfold decide_cmdp. rewrite R1, R2.
  unfold preference. cbn [filter]. unfold feasible at 1.
  apply Nat.leb_le in C. rewrite C.
  apply argmax_stays. intros a _. apply U.
Qed.

(** The fail-safe inputs of section 7: what a failed adapter reports. *)
Definition worst_case (m1 : Signals) (m2 : Scores) : Prop :=
  judge m2 == 0 /\ contradiction_mass m1 == 1 /\ rag_coverage m1 == 0.

Lemma Qltb_true (x y : Q) : x < y -> Qltb x y = true.
Proof.
  intros H. unfold Qltb. destruct (Qlt_le_dec x y) as [_ | G]; [reflexivity | lra].
Qed.

(** On the fail-safe inputs rule 1 or rule 2 applies. *)
Lemma decide_worst_case (dual : DualState) (remaining : nat)
    (context_supplied : bool) (m1 : Signals) (m2 : Scores)
    (budget : Budget) (risk_cap : Q) :
  high_water < 1 ->
  worst_case m1 m2 ->
  decide_cmdp dual remaining context_supplied m1 m2 budget risk_cap
  = if (0 <? remaining)%nat
    then (if context_supplied && Qltb (rag_coverage m1) (tau dual)
          then verify else revise)
    else abstain.
Proof.
  intros HW (_ & Hc & _). unfold decide_cmdp.
  rewrite (Qltb_true high_water (contradiction_mass m1)) by lra.
  destruct (context_supplied && Qltb (rag_coverage m1) (tau dual));
    destruct (0 <? remaining)%nat; reflexivity.
Qed.

Section Run.

(** The adapters and helpers [pipeline] calls; [generate] samples, so it
    takes the pass and the index of the sample. *)
Variables Query Context Domain Candidate : Type.
Variable is_long : Query -> float.
Variable retrieval_thin : option Context -> float.
Variable domain_risk : Domain -> float.
Variable domain : Context -> Domain.
Variable generate : Query -> option Context -> nat -> nat -> Candidate.
Variable monitor : list Candidate -> option Context -> Signals.
Variable evaluate : list Candidate -> option Context -> Scores.
Variable best : list Candidate -> option Candidate.

(** The fixed bound on re-entries: the first value of the counter. *)
Variable max_reentries : nat.

Record Response : Type := {
  action : Action;
  text : option Candidate
}.

Variable learn_update :
  Signals -> Scores -> Action -> Response * list Action -> DualState -> DualState.

Definition context_supplied (ctx : option Context) : bool :=
  match ctx with
  | Some _ => true
  | None => false
  end.

(** [[generate(query, ctx) for _ in range(K)]] *)
Definition sample (query : Query) (ctx : option Context) (K pass : nat)
    : list Candidate :=
  map (generate query ctx pass) (seq 0 K).

(** Modelled from the spec: [execute], the action executor, which the
    document calls from [pipeline] and does not define. Emit and abstain
    end the run; verify and revise re-enter with the counter decremented
    (section 5), that is they sample, score and decide again; with no
    budget left the run falls through to abstain. Besides the response it
    returns the decisions taken, first to last. *)
Fixpoint execute (remaining pass : nat) (a : Action) (cands : list Candidate)
    (query : Query) (ctx : option Context) (K : nat) (dual : DualState)
    (budget : Budget) (risk_cap : Q) : Response * list Action :=
  match a with
  | emit => ({| action := emit; text := best cands |}, [emit])
  | abstain => ({| action := abstain; text := None |}, [abstain])
  | verify | revise =>
      match remaining with
      | O => ({| action := abstain; text := None |}, [a; abstain])
      | S n =>
          let cands' := sample query ctx K (S pass) in
          let m1 := monitor cands' ctx in
          let m2 := evaluate cands' ctx in
          let a' := decide_cmdp dual n (context_supplied ctx) m1 m2
                      budget risk_cap in
          let (y, log) := execute n (S pass) a' cands' query ctx K dual
                            budget risk_cap in
          (y, a :: log)
      end
  end.

(** [pipeline] of the document with the controller and the executor
    modelled above in the places of [decide_cmdp] and [execute]: the
    dual state is the state passed in and out, the counter starts at its
    bound, and a re-entry samples as many candidates as the first pass. *)
Definition pipeline (query : Query) (ctx : option Context) (budget : Budget)
    (risk_cap : Q) (dual : DualState)
    : result (Response * list Action * DualState) :=
  Orchestrator.pipeline Query Context Domain Candidate Signals Scores Action
    (Response * list Action) Budget DualState
    is_long retrieval_thin domain_risk domain
    (fun q cx => generate q cx 0) monitor evaluate
    (fun st m1 m2 b cap =>
       decide_cmdp st max_reentries (context_supplied ctx) m1 m2 b cap)
    (fun st a cands q cx =>
       execute max_reentries 0 a cands q cx (List.length cands) st
         budget risk_cap)
    learn_update query ctx budget risk_cap dual.

Definition rescore (query : Query) (ctx : option Context) (K : nat)
    (dual : DualState) (budget : Budget) (risk_cap : Q) (n pass : nat)
    : Action * list Candidate :=
  let cands' := sample query ctx K (S pass) in
  (decide_cmdp dual n (context_supplied ctx) (monitor cands' ctx)
     (evaluate cands' ctx) budget risk_cap,
   cands').

Lemma execute_final (remaining pass : nat) (a : Action) (cands : list Candidate)
    (query : Query) (ctx : option Context) (K : nat) (dual : DualState)
    (budget : Budget) (risk_cap : Q) :
  is_reentry a = false ->
  execute remaining pass a cands query ctx K dual budget risk_cap
  = ({| action := a; text := match a with emit => best cands | _ => None end |},
     [a]).
Proof.
  destruct a; intros H; try discriminate H; destruct remaining; reflexivity.
Qed.

Lemma execute_reentry (n pass : nat) (a : Action) (cands : list Candidate)
    (query : Query) (ctx : option Context) (K : nat) (dual : DualState)
    (budget : Budget) (risk_cap : Q) :
  is_reentry a = true ->
  execute (S n) pass a cands query ctx K dual budget risk_cap
  = let next := rescore query ctx K dual budget risk_cap n pass in
    let r := execute n (S pass) (fst next) (snd next) query ctx K dual
               budget risk_cap in
    (fst r, a :: snd r).
Proof.
  destruct a; intros H; try discriminate H; cbn [execute rescore fst snd];
    destruct (execute n (S pass) _ _ query ctx K dual budget risk_cap);
    reflexivity.
Qed.

(** While the adapters keep reporting the fail-safe values, a run that
    has not decided emit ends in abstain without ever deciding emit,
    whatever budget it started with. *)
Lemma execute_worst_case_abstains
    (query : Query) (ctx : option Context) (K : nat) (dual : DualState)
    (budget : Budget) (risk_cap : Q) :
  high_water < 1 ->
  (forall cands, worst_case (monitor cands ctx) (evaluate cands ctx)) ->
  forall (remaining pass : nat) (a : Action) (cands : list Candidate),
    a <> emit ->
    let r := execute remaining pass a cands query ctx K dual budget risk_cap in
    action (fst r) = abstain /\ ~ In emit (snd r).
Proof.
  intros HW W. cbv zeta.
  induction remaining as [ | n IH]; intros pass a cands Ha.
  - destruct a; try (exfalso; apply Ha; reflexivity);
      cbn [execute fst snd action]; (split; [reflexivity | ]);
      cbn [In]; intros H; repeat (destruct H as [H | H]; try discriminate H);
      contradiction.
  - destruct (is_reentry a) eqn:R.
    + rewrite execute_reentry by exact R. cbv zeta. cbn [fst snd].
      destruct (IH (S pass)
                  (fst (rescore query ctx K dual budget risk_cap n pass))
                  (snd (rescore query ctx K dual budget risk_cap n pass)))
        as [A N].
      { unfold rescore. cbn [fst].
        rewrite (decide_worst_case _ _ _ _ _ _ _ HW (W _)).
        destruct (0 <? n)%nat; [ | discriminate].
        destruct (context_supplied ctx && _); discriminate. }
      split; [exact A | ].
      intros [E | E]; contradiction.
    + rewrite execute_final by exact R. cbn [fst snd action].
      destruct a; try discriminate R; [ | contradiction].
      split; [reflexivity | ].
      intros [E | []]. discriminate E.
Qed.


End Run.

End Control.

(** *** Sample instances *)

Definition sample_cost (a : Action) : nat := if is_reentry a then 1%nat else 0%nat.
Definition sample_utility (a : Action) : Q :=
  match a with
  | emit => 1
  | revise => 0.5
  | verify => 0.4
  | abstain => 0
  end.
Definition sample_risk (m1 : Signals) (m2 : Scores) (_ : Action) : Q :=
  0.4 * (1 - judge m2) + 0.3 * contradiction_mass m1 + 0.3 * (1 - rag_coverage m1).

Definition sample_decide : DualState -> nat -> bool -> Signals -> Scores ->
    Budget -> Q -> Action :=
  decide_cmdp 0.8 sample_utility sample_cost sample_risk.

Definition default_budget : Budget := {| tokens := 2000; latency_ms := 2000 |}.
Definition dual_half : DualState := {| lambda := 0; mu := 0; tau := 0.5 |}.

Definition signals (contradiction coverage : Q) : Signals :=
  {| k_sample_variance := 0; entropy_prefix_slope := 0;
     contradiction_mass := contradiction; rag_coverage := coverage |}.
Definition scores (j : Q) : Scores :=
  {| judge := j; prm := j; citation_score := j |}.

(** The scenarios of the specification. *)
Example scenario_emit :
  sample_decide dual_half 2 false (signals 0 0.9) (scores 0.8) default_budget 0.2
  = emit.
Proof. reflexivity. Qed.

Example scenario_verify :
  sample_decide dual_half 2 true (signals 0 0.2) (scores 0.8) default_budget 0.2
  = verify /\
  sample_decide dual_half 0 true (signals 0 0.2) (scores 0.8) default_budget 0.2
  = abstain.
Proof. split; reflexivity. Qed.

Example scenario_revise :
  sample_decide dual_half 2 false (signals 0.9 0.9) (scores 0.8) default_budget 0.2
  = revise.
Proof. reflexivity. Qed.

(** A run of the pipeline: coverage is low on the first pass and good
    after one verification. Candidates are numbered by their pass. *)
Definition sample_generate (_ : nat) (_ : option nat) (pass _ : nat) : nat := pass.
Definition sample_monitor (cands : list nat) (_ : option nat) : Signals :=
  match cands with
  | O :: _ => signals 0 0.2
  | _ => signals 0 0.9
  end.
Definition sample_evaluate (_ : list nat) (_ : option nat) : Scores := scores 0.8.
Definition sample_learn (_ : Signals) (_ : Scores) (_ : Action)
    (_ : Response nat * list Action) (dual : DualState) : DualState := dual.

Definition sample_pipeline : nat -> option nat -> Budget -> Q -> DualState ->
    result (Response nat * list Action * DualState) :=
  pipeline 0.8 sample_utility sample_cost sample_risk nat nat nat nat
    DynamicK.sample_is_long DynamicK.sample_retrieval_thin
    DynamicK.sample_domain_risk (fun c => c) sample_generate sample_monitor
    sample_evaluate (@hd_error nat) 2 sample_learn.

Example sample_pipeline_run :
  sample_pipeline 120%nat (Some 7%nat) default_budget 0.2 dual_half
  = Return ({| action := emit; text := Some 1%nat |}, [verify; emit], dual_half).
Proof. vm_compute. reflexivity. Qed.

(** Adapters that fail on every pass: the monitor and the evaluator
    report the fail-safe values. *)
Definition failing_monitor (_ : list nat) (_ : option nat) : Signals :=
  signals 1 0.
Definition failing_evaluate (_ : list nat) (_ : option nat) : Scores :=
  scores 0.

Definition failing_pipeline (high_water : Q) : nat -> option nat -> Budget ->
    Q -> DualState -> result (Response nat * list Action * DualState) :=
  pipeline high_water sample_utility sample_cost sample_risk nat nat nat nat
    DynamicK.sample_is_long DynamicK.sample_retrieval_thin
    DynamicK.sample_domain_risk (fun c => c) sample_generate failing_monitor
    failing_evaluate (@hd_error nat) 2 sample_learn.

(** With the mark at 0.8 the failing run verifies or revises until the
    counter is used up and then abstains. *)
Example failing_pipeline_abstains :
  failing_pipeline 0.8 120%nat (Some 7%nat) default_budget 0.2 dual_init
  = Return ({| action := abstain; text := None |},
            [revise; revise; abstain], dual_init).
Proof. vm_compute. reflexivity. Qed.



End Controller.

(** ** The claim graph: builder and contradiction mass (4.3, 13.2) *)

Module ClaimGraph.

Local Open Scope Q_scope.

Inductive Label : Type :=
| Entail
| Neutral
| Contradict.

Record Claim : Type := {
  id : nat;
  source_candidate_id : nat;
  span : string
}.

(** An edge joins two claims, named by their ids. *)
Record Edge : Type := {
  left_id : nat;
  right_id : nat;
  label : Label;
  weight : Q
}.

Record Graph : Type := {
  claims : list Claim;
  edges : list Edge
}.

Definition same_candidate (a b : Claim) : bool :=
  (source_candidate_id a =? source_candidate_id b)%nat.

(** The entailment adapter is external: a computation that may invoke it
    carries the log of the invocations made so far, first to last. *)
Definition Calling (A : Type) : Type :=
  list (Claim * Claim) -> A * list (Claim * Claim).

Definition ret {A : Type} (x : A) : Calling A := fun log => (x, log).

Definition and_then {A B : Type} (m : Calling A) (k : A -> Calling B)
    : Calling B :=
  fun log => let (x, log') := m log in k x log'.

Declare Scope calling_scope.
Delimit Scope calling_scope with calling.
Notation "x <- m ;; k" := (and_then m (fun x => k))
  (at level 61, m at next level, right associativity) : calling_scope.

Section Builder.

Local Open Scope calling_scope.

(** The pluggable parts: claim extraction from a candidate, the cap on the
    number of claims, and the entailment adapter. *)
Variable Candidate : Type.
Variable segment : Candidate -> list string.
Variable max_claims : nat.
Variable entail : Claim -> Claim -> Label * Q.

(** One invocation of the adapter: its answer, and the call logged. *)
Definition invoke (a b : Claim) : Calling (Label * Q) :=
  fun log => (entail a b, (log ++ [(a, b)])%list).

(** The spans of the candidates, each with the index of its candidate,
    in extraction order. *)
Fixpoint spans_from (k : nat) (cands : list Candidate) : list (nat * string) :=
  match cands with
  | [] => []
  | c :: rest => map (pair k) (segment c) ++ spans_from (S k) rest
  end.

Fixpoint number (next : nat) (spans : list (nat * string)) : list Claim :=
  match spans with
  | [] => []
  | (k, s) :: rest =>
      {| id := next; source_candidate_id := k; span := s |}
      :: number (S next) rest
  end.

(** Modelled from the spec: claim extraction with the cap (4.3): the
    earliest-extracted claims are kept. No code of the repository
    extracts claims. *)
Definition extract_claims (cands : list Candidate) : list Claim :=
  number 0 (firstn max_claims (spans_from 0 cands)).

Definition edge_between (a b : Claim) (answer : Label * Q) : Edge :=
  {| left_id := id a; right_id := id b;
     label := fst answer; weight := snd answer |}.

(** Modelled from the spec: the comparison loop of the builder (4.3). A
    claim is compared with each later claim of another candidate, by one
    invocation of the adapter, whose answer becomes the edge; a later
    claim of the same candidate is skipped. The document only says
    "pairwise NLI between claims across candidates". *)
Fixpoint compare_with (a : Claim) (later : list Claim) : Calling (list Edge) :=
  match later with
  | [] => ret []
  | b :: rest =>
      if same_candidate a b then compare_with a rest
      else
        answer <- invoke a b ;;
        es <- compare_with a rest ;;
        ret (edge_between a b answer :: es)
  end.

Fixpoint compare_all (cs : list Claim) : Calling (list Edge) :=
  match cs with
  | [] => ret []
  | a :: rest =>
      es <- compare_with a rest ;;
      es' <- compare_all rest ;;
      ret (es ++ es')%list
  end.

(** Modelled from the spec: the Claim Graph Builder (4.3). *)
Definition build_graph (cands : list Candidate) : Calling Graph :=
  let cs := extract_claims cands in
  es <- compare_all cs ;;
  ret {| claims := cs; edges := es |}.

(** The invocations [calls] hold exactly one that compares [a] with [b],
    in either order. *)
Definition compared_once (a b : Claim) (calls : list (Claim * Claim)) : Prop :=
  exists (before : list (Claim * Claim)) (p : Claim * Claim)
         (after : list (Claim * Claim)),
    calls = (before ++ p :: after)%list /\
    (p = (a, b) \/ p = (b, a)) /\
    forall q, In q (before ++ after) -> q <> (a, b) /\ q <> (b, a).

(** *** What the loops do, as lists *)

(** The pairs in the order the loops reach them. *)
Fixpoint comparisons (cs : list Claim) : list (Claim * Claim) :=
  match cs with
  | [] => []
  | a :: rest =>
      map (pair a) (filter (fun b => negb (same_candidate a b)) rest)
      ++ comparisons rest
  end.

Definition edge_of (p : Claim * Claim) : Edge :=
  edge_between (fst p) (snd p) (entail (fst p) (snd p)).

Lemma compare_with_run (a : Claim) (later : list Claim) :
  forall log,
    compare_with a later log
    = (map edge_of
         (map (pair a) (filter (fun b => negb (same_candidate a b)) later)),
       (log ++ map (pair a)
                 (filter (fun b => negb (same_candidate a b)) later))%list).
Proof.
  induction later as [ | b rest IH]; intros log; cbn [compare_with filter map].
  - unfold ret. rewrite app_nil_r. reflexivity.
  - destruct (same_candidate a b); cbn [negb map].
    + apply IH.
    + unfold and_then, invoke at 1. rewrite IH. unfold ret.
      rewrite <- app_assoc. reflexivity.
Qed.

Lemma compare_all_run (cs : list Claim) :
  forall log,
    compare_all cs log
    = (map edge_of (comparisons cs), (log ++ comparisons cs)%list).
Proof.
  induction cs as [ | a rest IH]; intros log; cbn [compare_all comparisons map].
  - unfold ret. rewrite app_nil_r. reflexivity.
  - unfold and_then. rewrite compare_with_run, IH. unfold ret.
    rewrite map_app, <- app_assoc. reflexivity.
Qed.

(** The calls to the adapter that compare the claims [a] and [b], in
    either order, counted by the ids of the claims. *)
Definition compares (a b : Claim) (p : Claim * Claim) : bool :=
  (id (fst p) =? id a)%nat && (id (snd p) =? id b)%nat
  || (id (fst p) =? id b)%nat && (id (snd p) =? id a)%nat.

Definition times_compared (a b : Claim) (calls : list (Claim * Claim)) : nat :=
  List.length (filter (compares a b) calls).

Lemma number_ids (spans : list (nat * string)) (next : nat) :
  map id (number next spans) = seq next (List.length spans).
Proof.
  revert next. induction spans as [ | [k s] rest IH]; intros next; cbn.
  - reflexivity.
  - rewrite IH. reflexivity.
Qed.

Lemma extract_claims_ids_nodup (cands : list Candidate) :
  NoDup (map id (extract_claims cands)).
Proof.
  unfold extract_claims. rewrite number_ids. apply seq_NoDup.
Qed.

Lemma extract_claims_capped (cands : list Candidate) :
  (List.length (extract_claims cands) <= max_claims)%nat.
Proof.
  unfold extract_claims.
  rewrite <- (length_map id), number_ids, length_seq.
  apply firstn_le_length.
Qed.

Lemma comparisons_in (cs : list Claim) (x y : Claim) :
  In (x, y) (comparisons cs) ->
  In x cs /\ In y cs /\ same_candidate x y = false.
Proof.
  induction cs as [ | c rest IH]; cbn [comparisons]; [contradiction | ].
  intros H. apply in_app_or in H as [H | H].
  - apply in_map_iff in H as (d & E & Hd). inversion E; subst.
    apply filter_In in Hd as [Hd Hs]. apply negb_true_iff in Hs.
    repeat split; [left; reflexivity | right; exact Hd | exact Hs].
  - apply IH in H as (Hx & Hy & Hs).
    repeat split; [right; exact Hx | right; exact Hy | exact Hs].
Qed.

Lemma times_compared_app (a b : Claim) (l1 l2 : list (Claim * Claim)) :
  times_compared a b (l1 ++ l2)
  = (times_compared a b l1 + times_compared a b l2)%nat.
Proof.
  unfold times_compared. rewrite filter_app, length_app. reflexivity.
Qed.

(** No call among later claims compares a claim whose id is not theirs. *)
Lemma times_compared_absent (a b : Claim) (rest : list Claim) :
  ~ In (id a) (map id rest) \/ ~ In (id b) (map id rest) ->
  times_compared a b (comparisons rest) = 0%nat.
Proof.
  intros H. unfold times_compared.
  destruct (filter (compares a b) (comparisons rest)) as [ | [x y] l] eqn:F;
    [reflexivity | exfalso].
  assert (In (x, y) (filter (compares a b) (comparisons rest))) as Hin
    by (rewrite F; left; reflexivity).
  apply filter_In in Hin as [Hin Hc].
  apply comparisons_in in Hin as (Hx & Hy & _).
  apply (in_map id) in Hx, Hy.
  unfold compares in Hc. cbn [fst snd] in Hc.
  apply orb_true_iff in Hc as [Hc | Hc];
    apply andb_true_iff in Hc as [E1 E2];
    apply Nat.eqb_eq in E1, E2; rewrite E1 in Hx; rewrite E2 in Hy;
    destruct H as [H | H]; contradiction.
Qed.

(** The calls that pair [c] with the claims of [l]. *)
Lemma times_compared_row (a b c : Claim) (l : list Claim) :
  id a <> id b ->
  times_compared a b (map (pair c) l)
  = if (id c =? id a)%nat
    then List.length (filter (fun d => (id d =? id b)%nat) l)
    else if (id c =? id b)%nat
         then List.length (filter (fun d => (id d =? id a)%nat) l)
         else 0%nat.
Proof.
  intros Hab. unfold times_compared.
  induction l as [ | d l IH]; cbn [map filter].
  - destruct (id c =? id a)%nat, (id c =? id b)%nat; reflexivity.
  - unfold compares at 1. cbn [fst snd].
    destruct (Nat.eqb_spec (id c) (id a)) as [Ea | Ea];
      destruct (Nat.eqb_spec (id c) (id b)) as [Eb | Eb];
      try (exfalso; congruence); cbn [andb orb].
    + rewrite orb_false_r.
      destruct (id d =? id b)%nat; cbn [List.length]; rewrite IH; reflexivity.
    + destruct (id d =? id a)%nat; cbn [List.length]; rewrite IH; reflexivity.
    + exact IH.
Qed.

(** A claim occurs once among claims with distinct ids, unless filtered. *)
Lemma one_with_id (keep : Claim -> bool) (b : Claim) (rest : list Claim) :
  NoDup (map id rest) ->
  In b rest ->
  List.length (filter (fun d => (id d =? id b)%nat) (filter keep rest))
  = if keep b then 1%nat else 0%nat.
Proof.
  induction rest as [ | d rest IH]; cbn [map filter]; [contradiction | ].
  intros ND Hin. inversion ND as [ | ? ? Hd ND']; subst.
  assert (forall l, ~ In (id b) (map id l) ->
            List.length (filter (fun d => (id d =? id b)%nat) (filter keep l)) = 0%nat)
    as Hnone.
  { induction l as [ | e l IHl]; cbn [map filter]; [reflexivity | ].
    intros Hn. destruct (keep e); cbn [filter].
    - destruct (Nat.eqb_spec (id e) (id b)) as [E | E].
      + exfalso. apply Hn. left. exact E.
      + apply IHl. intros G. apply Hn. right. exact G.
    - apply IHl. intros G. apply Hn. right. exact G. }
  destruct Hin as [-> | Hin].
  - destruct (keep b); cbn [filter].
    + rewrite Nat.eqb_refl. cbn [List.length]. rewrite (Hnone rest Hd). reflexivity.
    + apply (Hnone rest Hd).
  - assert (id d <> id b) as Hne
      by (intros E; apply Hd; rewrite E; apply in_map; exact Hin).
    destruct (keep d); cbn [filter].
    + destruct (Nat.eqb_spec (id d) (id b)) as [E | _]; [contradiction | ].
      apply IH; assumption.
    + apply IH; assumption.
Qed.

Lemma same_candidate_sym (a b : Claim) : same_candidate a b = same_candidate b a.
Proof. unfold same_candidate. apply Nat.eqb_sym. Qed.

Lemma same_id_same_claim (cs : list Claim) (a c : Claim) :
  NoDup (map id cs) -> In a cs -> In c cs -> id a = id c -> a = c.
Proof.
  induction cs as [ | d rest IH]; cbn [map]; [contradiction | ].
  intros ND Ha Hc E. inversion ND as [ | ? ? Hd ND']; subst.
  destruct Ha as [-> | Ha], Hc as [-> | Hc].
  - reflexivity.
  - exfalso. apply Hd. rewrite E. apply in_map. exact Hc.
  - exfalso. apply Hd. rewrite <- E. apply in_map. exact Ha.
  - apply IH; assumption.
Qed.

Lemma comparisons_once (cs : list Claim) :
  NoDup (map id cs) ->
  forall a b, In a cs -> In b cs -> id a <> id b ->
    times_compared a b (comparisons cs)
    = if same_candidate a b then 0%nat else 1%nat.
Proof.
  induction cs as [ | c rest IH]; intros ND a b Ha Hb Hab; [contradiction | ].
  pose proof ND as ND0.
  cbn [map] in ND. inversion ND as [ | ? ? Hc ND']; subst.
  cbn [comparisons]. rewrite times_compared_app, times_compared_row by exact Hab.
  destruct (Nat.eqb_spec (id c) (id a)) as [Ea | Ea].
  - assert (a = c) as -> by (apply (same_id_same_claim _ _ _ ND0); auto; left; reflexivity).
    destruct Hb as [-> | Hb]; [congruence | ].
    rewrite (one_with_id _ _ _ ND' Hb).
    rewrite times_compared_absent by (left; exact Hc).
    destruct (same_candidate c b); reflexivity.
  - destruct (Nat.eqb_spec (id c) (id b)) as [Eb | Eb].
    + assert (b = c) as -> by (apply (same_id_same_claim _ _ _ ND0); auto; left; reflexivity).
      destruct Ha as [-> | Ha]; [congruence | ].
      rewrite (one_with_id _ _ _ ND' Ha).
      rewrite times_compared_absent by (right; exact Hc).
      rewrite (same_candidate_sym a c).
      destruct (same_candidate c a); reflexivity.
    + destruct Ha as [-> | Ha]; [congruence | ].
      destruct Hb as [-> | Hb]; [congruence | ].
      cbn [Nat.add]. apply IH; assumption.
Qed.

(** A list with one element that passes a test splits around it. *)
Lemma filter_one {A : Type} (f : A -> bool) (l : list A) :
  List.length (filter f l) = 1%nat ->
  exists (before : list A) (x : A) (after : list A),
    l = (before ++ x :: after)%list /\ f x = true /\
    forall y, In y (before ++ after) -> f y = false.
Proof.
  induction l as [ | a l IH]; cbn [filter]; [discriminate | ].
  destruct (f a) eqn:Fa; cbn [List.length]; intros H.
  - exists [], a, l. split; [reflexivity | ]. split; [exact Fa | ].
    cbn [app]. intros y Hy.
    destruct (f y) eqn:Fy; [exfalso | reflexivity].
    assert (In y (filter f l)) as G by (apply filter_In; split; assumption).
    destruct (filter f l); [contradiction | discriminate H].
  - destruct (IH H) as (before & x & after & -> & Fx & Hrest).
    exists (a :: before), x, after. split; [reflexivity | ].
    split; [exact Fx | ].
    intros y [<- | Hy]; [exact Fa | apply Hrest; exact Hy].
Qed.

Lemma compares_pair (cs : list Claim) (a b : Claim) (p : Claim * Claim) :
  NoDup (map id cs) ->
  In a cs -> In b cs -> In (fst p) cs -> In (snd p) cs ->
  compares a b p = true -> p = (a, b) \/ p = (b, a).
Proof.
  intros ND Ha Hb H1 H2 C. destruct p as [x y]. cbn [fst snd] in *.
  unfold compares in C. cbn [fst snd] in C.
  apply orb_true_iff in C as [C | C];
    apply andb_true_iff in C as [E1 E2]; apply Nat.eqb_eq in E1, E2.
  - left. f_equal; apply (same_id_same_claim cs); assumption.
  - right. f_equal; apply (same_id_same_claim cs); assumption.
Qed.

Lemma compares_refl (a b : Claim) :
  compares a b (a, b) = true /\ compares a b (b, a) = true.
Proof.
  unfold compares. cbn [fst snd]. rewrite !Nat.eqb_refl.
  split; [reflexivity | apply orb_true_r].
Qed.


End Builder.

(** Three candidates with two, one and one claims. *)
Definition sentences (c : list string) : list string := c.
Definition always_neutral (_ _ : Claim) : Label * Q := (Neutral, 0).

Definition call_ids (calls : list (Claim * Claim)) : list (nat * nat) :=
  map (fun p => (id (fst p), id (snd p))) calls.

Example calls_three_candidates :
  call_ids (snd (build_graph (list string) sentences 10 always_neutral
                   [["a"; "b"]; ["c"]; ["d"]]%string []))
  = [(0, 2); (0, 3); (1, 2); (1, 3); (2, 3)]%nat.
Proof. reflexivity. Qed.

Example calls_capped :
  call_ids (snd (build_graph (list string) sentences 3 always_neutral
                   [["a"; "b"]; ["c"]; ["d"]]%string []))
  = [(0, 2); (1, 2)]%nat.
Proof. reflexivity. Qed.

Section Contradiction.

(** The confidence threshold above which a contradiction counts. *)
Variable threshold : Q.
Variable g : Graph.

Definition is_contradict (l : Label) : bool :=
  match l with
  | Contradict => true
  | Entail | Neutral => false
  end.

Definition has_id (n : nat) (R : list Claim) : bool :=
  existsb (fun c => (id c =? n)%nat) R.

(** A contradiction edge above the threshold between two claims of [R]. *)
Definition conflict (R : list Claim) (e : Edge) : bool :=
  is_contradict (label e)
  && (if Qlt_le_dec threshold (weight e) then true else false)
  && has_id (left_id e) R && has_id (right_id e) R.

Definition conflicts (R : list Claim) : list Edge :=
  filter (conflict R) (edges g).

Definition incident (c : Claim) (e : Edge) : bool :=
  (left_id e =? id c)%nat || (right_id e =? id c)%nat.

Definition Qsum (l : list Q) : Q := fold_right Qplus 0 l.

(** The sum of the weights of the conflicts at [c]. *)
Definition incident_weight (R : list Claim) (c : Claim) : Q :=
  Qsum (map weight (filter (incident c) (conflicts R))).

Definition remove_claim (c : Claim) (R : list Claim) : list Claim :=
  filter (fun d => negb (id d =? id c)%nat) R.

(** Modelled from the spec: the greedy removal of 4.3: while a conflict
    remains, remove the claim with the highest incident weight (the
    earliest of several). The document names the step ("find maximum
    consistent subgraph") without an algorithm. [fuel] bounds the number
    of removals. *)
Fixpoint greedy_loop (fuel : nat) (R : list Claim) : list Claim :=
  match fuel with
  | O => R
  | S fuel' =>
      match conflicts R, R with
      | _ :: _, c :: rest =>
          greedy_loop fuel' (remove_claim (argmax (incident_weight R) c rest) R)
      | _, _ => R
      end
  end.

Definition kept : list Claim := greedy_loop (List.length (claims g)) (claims g).

Definition size (R : list Claim) : Q := inject_Z (Z.of_nat (List.length R)).

(** Modelled from the spec: [contradiction_mass] = 1 - |kept|/|total|
    (4.3); with no claim at all the quotient is 0. *)
Definition contradiction_mass : Q := 1 - size kept / size (claims g).

(** *** The words of 4.3, on the graph itself *)

(** A contradiction edge above the threshold remains among the claims
    [R]: both its ends are claims of [R]. *)
Definition remains (R : list Claim) (e : Edge) : Prop :=
  label e = Contradict /\ threshold < weight e /\
  (exists a, In a R /\ id a = left_id e) /\
  (exists b, In b R /\ id b = right_id e).

Definition consistent (R : list Claim) : Prop :=
  forall e, In e (edges g) -> ~ remains R e.

Definition touches (c : Claim) (e : Edge) : Prop :=
  left_id e = id c \/ right_id e = id c.

(** The sum of the weights of the remaining contradiction edges, among
    [es], that are incident to [c]. *)
Inductive incident_sum (R : list Claim) (c : Claim) : list Edge -> Q -> Prop :=
| sum_none : incident_sum R c [] 0
| sum_counted (e : Edge) (es : list Edge) (w : Q) :
    remains R e -> touches c e ->
    incident_sum R c es w ->
    incident_sum R c (e :: es) (weight e + w)
| sum_skipped (e : Edge) (es : list Edge) (w : Q) :
    ~ (remains R e /\ touches c e) ->
    incident_sum R c es w ->
    incident_sum R c (e :: es) w.

(** No claim of [R] has a higher sum than [c]. *)
Definition highest (R : list Claim) (c : Claim) : Prop :=
  exists wc : Q,
    incident_sum R c (edges g) wc /\
    forall (d : Claim) (wd : Q),
      In d R -> incident_sum R d (edges g) wd -> wd <= wc.

(** The procedure: from the claims [R], the claims removed one after the
    other, and the claims left when no contradiction edge above the
    threshold remains. *)
Inductive greedy_trace : list Claim -> list Claim -> list Claim -> Prop :=
| trace_done (R : list Claim) :
    consistent R ->
    greedy_trace R [] R
| trace_step (R : list Claim) (c : Claim) (removed K : list Claim) :
    ~ consistent R ->
    In c R ->
    highest R c ->
    greedy_trace (filter (fun d => negb (id d =? id c)%nat) R) removed K ->
    greedy_trace R (c :: removed) K.

Lemma has_id_spec (n : nat) (R : list Claim) :
  has_id n R = true <-> exists a, In a R /\ id a = n.
Proof.
  unfold has_id. rewrite existsb_exists.
  split; intros (a & Ha & E); exists a; (split; [exact Ha | ]);
    apply Nat.eqb_eq; exact E.
Qed.

Lemma conflict_spec (R : list Claim) (e : Edge) :
  conflict R e = true <-> remains R e.
Proof.
  unfold conflict, remains.
  rewrite !andb_true_iff, !has_id_spec.
  assert (is_contradict (label e) = true <-> label e = Contradict) as ->
    by (destruct (label e); cbn; split; congruence).
  assert ((if Qlt_le_dec threshold (weight e) then true else false) = true
          <-> threshold < weight e) as ->.
  { destruct (Qlt_le_dec threshold (weight e)) as [L | L];
      split; try congruence; try discriminate.
    intros G. exfalso. apply (Qlt_not_le _ _ G L). }
  tauto.
Qed.

Lemma incident_spec (c : Claim) (e : Edge) :
  incident c e = true <-> touches c e.
Proof.
  unfold incident, touches. rewrite orb_true_iff, !Nat.eqb_eq. tauto.
Qed.

Lemma conflicts_consistent (R : list Claim) :
  conflicts R = [] <-> consistent R.
Proof.
  unfold conflicts, consistent. split.
  - intros F e He Hr. apply conflict_spec in Hr.
    assert (In e (filter (conflict R) (edges g))) as G
      by (apply filter_In; split; assumption).
    rewrite F in G. contradiction.
  - intros H. destruct (filter (conflict R) (edges g)) as [ | e l] eqn:F;
      [reflexivity | exfalso].
    assert (In e (filter (conflict R) (edges g))) as G
      by (rewrite F; left; reflexivity).
    apply filter_In in G as [He Hc]. apply conflict_spec in Hc.
    exact (H e He Hc).
Qed.

(** The sum the loop computes, edge by edge. *)
Definition weight_among (R : list Claim) (c : Claim) (es : list Edge) : Q :=
  Qsum (map weight (filter (incident c) (filter (conflict R) es))).

Lemma weight_among_cons (R : list Claim) (c : Claim) (e : Edge)
    (es : list Edge) :
  weight_among R c (e :: es)
  = if conflict R e && incident c e
    then weight e + weight_among R c es
    else weight_among R c es.
Proof.
  unfold weight_among. cbn [filter].
  destruct (conflict R e); cbn [andb filter]; [ | reflexivity].
  destruct (incident c e); reflexivity.
Qed.

Lemma incident_sum_computed (R : list Claim) (c : Claim) (es : list Edge) :
  incident_sum R c es (weight_among R c es).
Proof.
  induction es as [ | e es IH]; [apply sum_none | ].
  rewrite weight_among_cons.
  destruct (conflict R e) eqn:C; cbn [andb].
  - destruct (incident c e) eqn:I.
    + apply sum_counted; [apply conflict_spec | apply incident_spec | ];
        assumption.
    + apply sum_skipped; [ | exact IH].
      intros [_ T]. apply incident_spec in T. congruence.
  - apply sum_skipped; [ | exact IH].
    intros [Hr _]. apply conflict_spec in Hr. congruence.
Qed.

Lemma incident_sum_unique (R : list Claim) (c : Claim) (es : list Edge)
    (w : Q) :
  incident_sum R c es w -> w = weight_among R c es.
Proof.
  induction 1 as [ | e es w Hr Ht _ IH | e es w Hn _ IH];
    [reflexivity | | ]; rewrite weight_among_cons.
  - apply conflict_spec in Hr. apply incident_spec in Ht.
    rewrite Hr, Ht, IH. reflexivity.
  - destruct (conflict R e) eqn:C; cbn [andb]; [ | exact IH].
    destruct (incident c e) eqn:I; [exfalso | exact IH].
    apply Hn. split; [apply conflict_spec | apply incident_spec]; assumption.
Qed.

Lemma argmax_highest (c : Claim) (rest : list Claim) :
  highest (c :: rest) (argmax (incident_weight (c :: rest)) c rest).
Proof.
  exists (incident_weight (c :: rest)
            (argmax (incident_weight (c :: rest)) c rest)).
  split; [apply incident_sum_computed | ].
  intros d wd Hd Hs. apply incident_sum_unique in Hs. subst wd.
  apply (argmax_best _ (incident_weight (c :: rest)) rest c d Hd).
Qed.

Lemma conflicts_nil : conflicts [] = [].
Proof.
  unfold conflicts. induction (edges g) as [ | e l IH]; cbn [filter]; [reflexivity | ].
  unfold conflict at 1. cbn [has_id existsb]. rewrite andb_false_r. exact IH.
Qed.

Lemma remove_claim_shorter (c : Claim) (R : list Claim) :
  In c R -> (List.length (remove_claim c R) < List.length R)%nat.
Proof.
  unfold remove_claim. induction R as [ | d R IH]; cbn [filter]; [contradiction | ].
  intros [-> | Hin].
  - rewrite Nat.eqb_refl. cbn [negb List.length].
    apply Nat.lt_succ_r. apply filter_length_le.
  - destruct (negb (id d =? id c)%nat); cbn [List.length].
    + apply -> Nat.succ_lt_mono. apply IH. exact Hin.
    + apply Nat.lt_lt_succ_r. apply IH. exact Hin.
Qed.

(** The loop follows the procedure, and its fuel suffices. *)
Lemma greedy_loop_trace (fuel : nat) :
  forall R, (List.length R <= fuel)%nat ->
    exists removed, greedy_trace R removed (greedy_loop fuel R).
Proof.
  induction fuel as [ | fuel IH]; intros R Hlen.
  - destruct R; [ | cbn in Hlen; lia].
    cbn [greedy_loop]. exists []. apply trace_done.
    apply conflicts_consistent. apply conflicts_nil.
  - cbn [greedy_loop].
    destruct (conflicts R) as [ | e es] eqn:C.
    + exists []. apply trace_done. apply conflicts_consistent. exact C.
    + destruct R as [ | c rest].
      * rewrite conflicts_nil in C. discriminate C.
      * pose proof (argmax_in _ (incident_weight (c :: rest)) rest c) as Hin.
        destruct (IH (remove_claim
                        (argmax (incident_weight (c :: rest)) c rest)
                        (c :: rest))) as [removed T].
        { apply remove_claim_shorter in Hin. lia. }
        exists (argmax (incident_weight (c :: rest)) c rest :: removed).
        apply trace_step.
        -- intros H. apply conflicts_consistent in H. rewrite H in C.
           discriminate C.
        -- exact Hin.
        -- apply argmax_highest.
        -- exact T.
Qed.

Lemma filter_twice {A : Type} (p q : A -> bool) (l : list A) :
  filter p (filter q l) = filter (fun x => q x && p x) l.
Proof.
  induction l as [ | a l IH]; cbn [filter]; [reflexivity | ].
  destruct (q a); cbn [filter andb]; [ | exact IH].
  destruct (p a); rewrite IH; reflexivity.
Qed.

(** What a run of the procedure leaves: the claims it did not remove, no
    two of them joined by a contradiction edge above the threshold. *)
Lemma greedy_trace_kept (R removed K : list Claim) :
  greedy_trace R removed K ->
  consistent K /\
  K = filter (fun c => negb (existsb (fun r => (id c =? id r)%nat) removed)) R.
Proof.
  induction 1 as [R C | R c removed K C Hin Hmax T [IH1 IH2]].
  - split; [exact C | ]. cbn [existsb negb].
    induction R as [ | a R IHR]; cbn [filter]; [reflexivity | ].
    f_equal. apply IHR. intros e He Hr. apply (C e He).
    destruct Hr as (L & W & (x & Hx & Ex) & (y & Hy & Ey)).
    repeat split; try assumption;
      [exists x | exists y]; (split; [right; assumption | assumption]).
  - split; [exact IH1 | ].
    rewrite IH2, filter_twice. apply filter_ext.
    intros d. cbn [existsb]. rewrite negb_orb. reflexivity.
Qed.

Lemma greedy_loop_length (fuel : nat) :
  forall R, (List.length (greedy_loop fuel R) <= List.length R)%nat.
Proof.
  induction fuel as [ | fuel IH]; intros R; cbn [greedy_loop]; [lia | ].
  destruct (conflicts R) as [ | e es]; [lia | ].
  destruct R as [ | c rest]; [lia | ].
  pose proof (argmax_in _ (incident_weight (c :: rest)) rest c) as Hin.
  apply remove_claim_shorter in Hin.
  specialize (IH (remove_claim (argmax (incident_weight (c :: rest)) c rest)
                    (c :: rest))).
  lia.
Qed.

(** C6. For every claim graph, [contradiction_mass] is 1 - |kept|/|total|
    for the claims [kept] that the greedy procedure leaves: starting from
    all claims, while a contradiction edge above the threshold joins two
    remaining claims, a claim with the highest sum of the weights of such
    edges incident to it is removed. The claims kept are the claims of
    the graph that were not removed, and no contradiction edge above the
    threshold joins two of them. *)
Theorem contradiction_mass_greedy :
  exists removed : list Claim,
    greedy_trace (claims g) removed kept /\
    consistent kept /\
    kept = filter (fun c =>
                     negb (existsb (fun r => (id c =? id r)%nat) removed))
                  (claims g) /\
    contradiction_mass
    == 1 - inject_Z (Z.of_nat (List.length kept))
           / inject_Z (Z.of_nat (List.length (claims g))) /\
    (claims g <> [] -> 0 <= contradiction_mass /\ contradiction_mass <= 1).
Proof.
  destruct (greedy_loop_trace (List.length (claims g)) (claims g)
              (Nat.le_refl _)) as [removed T].
  fold kept in T.
  destruct (greedy_trace_kept _ _ _ T) as [C E].
  exists removed.
  split; [exact T | ]. split; [exact C | ]. split; [exact E | ].
  split; [reflexivity | ].
  pose proof (greedy_loop_length (List.length (claims g)) (claims g)) as L.
  fold kept in L.
  intros NE. unfold contradiction_mass, size.
  set (n := List.length (claims g)) in *.
  assert (0 < n)%nat as Hpos.
  { subst n. destruct (claims g); [contradiction | cbn; lia]. }
  assert (0 < inject_Z (Z.of_nat n)) as Hn.
  { replace 0 with (inject_Z 0) by reflexivity. rewrite <- Zlt_Qlt. lia. }
  assert (0 <= inject_Z (Z.of_nat (List.length kept))) as Hk.
  { replace 0 with (inject_Z 0) by reflexivity. rewrite <- Zle_Qle. lia. }
  assert (inject_Z (Z.of_nat (List.length kept)) <= inject_Z (Z.of_nat n)) as Hkn.
  { rewrite <- Zle_Qle. lia. }
  assert (0 <= inject_Z (Z.of_nat (List.length kept)) / inject_Z (Z.of_nat n)) as H0.
  { apply Qle_shift_div_l; [exact Hn | ]. rewrite Qmult_0_l. exact Hk. }
  assert (inject_Z (Z.of_nat (List.length kept)) / inject_Z (Z.of_nat n) <= 1) as H1.
  { apply Qle_shift_div_r; [exact Hn | ]. rewrite Qmult_1_l. exact Hkn. }
  split; lra.
Qed.

End Contradiction.

(** Claim 0 contradicts claims 1 and 2: it is removed, a third of the
    claims. *)
Definition claim (n k : nat) : Claim :=
  {| id := n; source_candidate_id := k; span := EmptyString |}.

Definition star : Graph :=
  {| claims := [claim 0 0; claim 1 1; claim 2 2];
     edges := [ {| left_id := 0; right_id := 1; label := Contradict; weight := 0.9 |};
                {| left_id := 0; right_id := 2; label := Contradict; weight := 0.8 |};
                {| left_id := 1; right_id := 2; label := Entail; weight := 0.9 |} ] |}.

Example star_kept : map id (kept 0.5 star) = [1; 2]%nat.
Proof. vm_compute. reflexivity. Qed.

Example star_mass : contradiction_mass 0.5 star == 1 / 3.
Proof. vm_compute. reflexivity. Qed.

(** Four claims contradicting in a row: claim 1, the first of the two
    with the highest sum, is removed, then claim 2; the weak
    contradiction between 0 and 3 stays below the threshold. *)
Definition row : Graph :=
  {| claims := [claim 0 0; claim 1 1; claim 2 2; claim 3 3];
     edges := [ {| left_id := 0; right_id := 1; label := Contradict; weight := 0.9 |};
                {| left_id := 1; right_id := 2; label := Contradict; weight := 0.9 |};
                {| left_id := 2; right_id := 3; label := Contradict; weight := 0.9 |};
                {| left_id := 0; right_id := 3; label := Contradict; weight := 0.3 |} ] |}.

Example row_kept : map id (kept 0.5 row) = [0; 3]%nat.
Proof. vm_compute. reflexivity. Qed.

Example row_mass : contradiction_mass 0.5 row == 1 / 2.
Proof. vm_compute. reflexivity. Qed.

End ClaimGraph.

(** ** The audit log (4.8) *)

Module AuditLog.

Section Chain.

(** The content of a record (everything but [prev_hash]), the hashes, the
    hash of a record's canonical serialization and the genesis value. *)
Variables Content Hash : Type.

Record LogRecord : Type := {
  content : Content;
  prev_hash : Hash
}.

Variable hash : LogRecord -> Hash.
Variable genesis : Hash.

(** What the next record must carry: the hash of the last record, or the
    genesis value in an empty log. *)
Definition link (log : list LogRecord) : Hash :=
  match log with
  | [] => genesis
  | r :: rest => hash (last rest r)
  end.

(** Modelled from the spec: the Audit Logger appends one record per
    decision, with [prev_hash] the hash of the record before it (4.8).
    The document only asks for tamper-evident logs. *)
Definition append (log : list LogRecord) (c : Content) : list LogRecord :=
  log ++ [{| content := c; prev_hash := link log |}].

Definition log_of (cs : list Content) : list LogRecord :=
  fold_left append cs [].

(** The check on the adjacent records [j] and [j + 1]. *)
Definition pair_ok (log : list LogRecord) (j : nat) : Prop :=
  forall a b, nth_error log j = Some a -> nth_error log (S j) = Some b ->
    prev_hash b = hash a.

Definition chain_ok (log : list LogRecord) : Prop :=
  (forall r, nth_error log 0 = Some r -> prev_hash r = genesis) /\
  (forall j, pair_ok log j).

(** A stored record overwritten in place. *)
Fixpoint replace (i : nat) (r' : LogRecord) (log : list LogRecord)
    : list LogRecord :=
  match log, i with
  | [], _ => []
  | _ :: rest, O => r' :: rest
  | r :: rest, S i' => r :: replace i' r' rest
  end.

(** Walking the log from a starting hash. *)
Fixpoint chained (prev : Hash) (log : list LogRecord) : Prop :=
  match log with
  | [] => True
  | r :: rest => prev_hash r = prev /\ chained (hash r) rest
  end.

Lemma last_cons (l : list LogRecord) (a d : LogRecord) :
  last (a :: l) d = last l a.
Proof.
  revert a d. induction l as [ | b l IH]; intros a d; [reflexivity | ].
  change (last (a :: b :: l) d) with (last (b :: l) d).
  rewrite (IH b d), (IH b a). reflexivity.
Qed.

Lemma chained_snoc (log : list LogRecord) (r : LogRecord) (prev : Hash) :
  chained prev log ->
  prev_hash r = match log with
                | [] => prev
                | r0 :: rest => hash (last rest r0)
                end ->
  chained prev (log ++ [r]).
Proof.
  revert prev. induction log as [ | r0 rest IH]; intros prev C E; cbn.
  - split; [exact E | exact I].
  - destruct C as [C0 C]. split; [exact C0 | ].
    apply IH; [exact C | ].
    rewrite E. destruct rest as [ | r1 rest']; [reflexivity | ].
    rewrite last_cons. reflexivity.
Qed.

Lemma chained_pairs (log : list LogRecord) (prev : Hash) :
  chained prev log -> forall j, pair_ok log j.
Proof.
  revert prev. induction log as [ | r rest IH]; intros prev C j a b Ha Hb.
  - destruct j; discriminate Ha.
  - destruct C as [_ C]. destruct j as [ | j].
    + cbn in Ha, Hb. inversion Ha; subst.
      destruct rest as [ | r1 rest']; [discriminate Hb | ].
      cbn in Hb. inversion Hb; subst. apply C.
    + cbn in Ha, Hb. apply (IH _ C j a b Ha Hb).
Qed.

Lemma chained_log_of (cs : list Content) (log : list LogRecord) :
  chained genesis log -> chained genesis (fold_left append cs log).
Proof.
  revert log. induction cs as [ | c cs IH]; intros log C; cbn [fold_left].
  - exact C.
  - apply IH. unfold append. apply chained_snoc; [exact C | ].
    destruct log; reflexivity.
Qed.

Lemma log_of_chain_ok (cs : list Content) : chain_ok (log_of cs).
Proof.
  assert (chained genesis (log_of cs)) as C by (apply chained_log_of; exact I).
  split.
  - intros r H. destruct (log_of cs) as [ | r0 rest]; [discriminate H | ].
    cbn in H. inversion H; subst. apply C.
  - apply (chained_pairs _ _ C).
Qed.

Lemma replace_at (log : list LogRecord) (i : nat) (r r' : LogRecord) :
  nth_error log i = Some r -> nth_error (replace i r' log) i = Some r'.
Proof.
  revert i. induction log as [ | r0 rest IH]; intros i H.
  - destruct i; discriminate H.
  - destruct i as [ | i]; cbn; [reflexivity | ]. apply IH. exact H.
Qed.

Lemma replace_elsewhere (log : list LogRecord) (i j : nat) (r' : LogRecord) :
  i <> j -> nth_error (replace i r' log) j = nth_error log j.
Proof.
  revert i j. induction log as [ | r0 rest IH]; intros i j H.
  - destruct i; reflexivity.
  - destruct i as [ | i], j as [ | j]; cbn; try reflexivity.
    + contradiction.
    + apply IH. intros E. apply H. rewrite E. reflexivity.
Qed.

(** The amended C5. In a log built by appending, the first record carries
    the genesis value and every record after it the hash of the record
    before. With a hash under which records of different content never
    collide, overwriting any record that has a successor by a record of
    another content breaks the check between the two. *)
Theorem chain_detects_tampering
    (hash_collision_free :
       forall r1 r2, hash r1 = hash r2 -> content r1 = content r2)
    (cs : list Content) (i : nat) (r r' next : LogRecord) :
  let log := log_of cs in
  chain_ok log /\
  (nth_error log i = Some r ->
   nth_error log (S i) = Some next ->
   content r' <> content r ->
   nth_error (replace i r' log) i = Some r' /\
   nth_error (replace i r' log) (S i) = Some next /\
   prev_hash next <> hash r' /\
   ~ pair_ok (replace i r' log) i).
Proof.
  cbv zeta. pose proof (log_of_chain_ok cs) as OK.
  split; [exact OK | ].
  intros Hr Hn Hne.
  pose proof (replace_at _ _ _ r' Hr) as A.
  assert (nth_error (replace i r' (log_of cs)) (S i) = Some next) as B
    by (rewrite replace_elsewhere by lia; exact Hn).
  assert (prev_hash next <> hash r') as D.
  { destruct OK as [_ P]. rewrite (P i r next Hr Hn).
    intros E. apply Hne. symmetry. apply hash_collision_free. exact E. }
  repeat split; try assumption.
  intros P. apply D. apply (P r' next A B).
Qed.

End Chain.

Arguments content {Content Hash} l.
Arguments prev_hash {Content Hash} l.
Arguments log_of {Content Hash} hash genesis cs.
Arguments replace {Content Hash} i r' log.
Arguments pair_ok {Content Hash} hash log j.
Arguments chain_ok {Content Hash} hash genesis log.

(** A sample log: contents are numbers and the hash of a record is its
    serialization, so no two records collide. *)
Definition serialize (r : LogRecord nat (list nat)) : list nat :=
  content r :: prev_hash r.

Definition sample_log : list (LogRecord nat (list nat)) :=
  log_of serialize [] [10; 20; 30]%nat.

Example sample_log_records :
  sample_log
  = [ {| content := 10; prev_hash := [] |};
      {| content := 20; prev_hash := [10] |};
      {| content := 30; prev_hash := [20; 10] |} ]%nat.
Proof. reflexivity. Qed.

Lemma serialize_collision_free (r1 r2 : LogRecord nat (list nat)) :
  serialize r1 = serialize r2 -> content r1 = content r2.
Proof.
  unfold serialize. intros E. inversion E. reflexivity.
Qed.

(** C5 as stated fails: the last record has no successor, so a change to
    its content leaves every check of the chain intact, even with a hash
    that never collides. *)
Lemma last_record_tampering_undetected :
  let forged := {| content := 99%nat; prev_hash := [20; 10]%nat |} in
  let log' := replace 2 forged sample_log in
  (forall r, nth_error sample_log 2 = Some r -> content r <> content forged) /\
  nth_error log' 2 = Some forged /\
  chain_ok serialize [] log'.
Proof.
  cbv zeta. split; [intros r H; inversion H; discriminate | ].
  split; [reflexivity | ].
  split.
  - intros r H. cbn in H. inversion H. reflexivity.
  - intros j a b Ha Hb.
    destruct j as [ | [ | [ | j]]]; cbn in Ha, Hb;
      try discriminate Hb;
      inversion Ha; inversion Hb; subst; reflexivity.
Qed.

Lemma chain_detects_tampering_witness :
  let forged := {| content := 99%nat; prev_hash := [10]%nat |} in
  chain_ok serialize [] sample_log /\
  ~ pair_ok serialize (replace 1 forged sample_log) 1.
Proof.
  cbv zeta.
  destruct (chain_detects_tampering nat (list nat) serialize [] serialize_collision_free
              [10; 20; 30]%nat 1
              {| content := 20%nat; prev_hash := [10]%nat |}
              {| content := 99%nat; prev_hash := [10]%nat |}
              {| content := 30%nat; prev_hash := [20; 10]%nat |})
    as [OK D].
  split; [exact OK | ].
  apply D; [reflexivity | reflexivity | discriminate].
Defined.

End AuditLog.
